(** * DWM3001CDK positioning example: distance aggregation and two-beacon solver

    A shallow embedding of [python_wrapper/example_usage.py]:
    the [DistanceCollector] windows and averages, the [PositionCalculator]
    circle intersection, the line handler of the tag reader and the
    position report of [PositioningSystem].

    Numbers.  Python [float] values (timestamps, distances, coordinates)
    are modelled as real numbers: arithmetic is exact, and rounding,
    overflow, infinities and NaN are outside the model.  [time.time()] is
    an explicit argument ([current_time], [timestamp]).  A Python exception
    is a value of [outcome]; [None] is [None] of [option]. *)

From Stdlib Require Import Reals Lra Lia List Bool ZArith String Ascii Sorted.
Import ListNotations.
Open Scope R_scope.

(** ** Comparisons of floats as booleans *)

Definition Rltb (a b : R) : bool := if Rlt_dec a b then true else false.
Definition Rleb (a b : R) : bool := if Rle_dec a b then true else false.
Definition Reqb (a b : R) : bool := if Req_dec_T a b then true else false.

(** ** Module constants (Configuration Parameters) *)

Definition BEACON1_POSITION : R * R := (0, 0).
Definition BEACON2_POSITION : R * R := (2, 0).
Definition REPORT_INTERVAL_SECONDS : R := 2.
Definition DISTANCE_TIMEOUT_SECONDS : R := 5.
Definition AVERAGING_WINDOW_SECONDS : R := 2.

(** ** DistanceCollector *)

(** A stored measurement: the tuple [(timestamp, distance)]. *)
Definition sample : Type := R * R.

Module DistanceCollector.

(** The fields of the object that the window logic reads and writes.  The
    subprocess and thread handles are not part of the model. *)
Record t : Type := mk {
  port : string;
  averaging_window : R;
  beacon1_distances : list sample;
  beacon2_distances : list sample;
  running : bool
}.

(** [__init__(port, averaging_window)]: stores its arguments, no check. *)
Definition __init__ (port : string) (averaging_window : R) : t :=
  mk port averaging_window [] [] false.

(** [while distance_list and distance_list[0][0] < cutoff_time:
       distance_list.pop(0)] *)
Fixpoint pop_front_while_older (cutoff_time : R) (distance_list : list sample)
  : list sample :=
  match distance_list with
  | [] => []
  | s :: rest =>
      if Rltb (fst s) cutoff_time
      then pop_front_while_older cutoff_time rest
      else distance_list
  end.

(** [_cleanup_old_measurements(distance_list, current_time)]; the list is
    mutated in place, so callers store the result back in the field the
    list came from. *)
Definition _cleanup_old_measurements (self : t) (distance_list : list sample)
    (current_time : R) : list sample :=
  let cutoff_time := current_time - averaging_window self in
  pop_front_while_older cutoff_time distance_list.

Definition set_beacon1 (self : t) (l : list sample) : t :=
  mk (port self) (averaging_window self) l (beacon2_distances self)
     (running self).

Definition set_beacon2 (self : t) (l : list sample) : t :=
  mk (port self) (averaging_window self) (beacon1_distances self) l
     (running self).

(** [_add_distance_measurement(timestamp, beacon_num, distance)] *)
Definition _add_distance_measurement (self : t) (timestamp : R)
    (beacon_num : Z) (distance : R) : t :=
  if (beacon_num =? 1)%Z then
    let appended := beacon1_distances self ++ [(timestamp, distance)] in
    set_beacon1 self (_cleanup_old_measurements self appended timestamp)
  else if (beacon_num =? 2)%Z then
    let appended := beacon2_distances self ++ [(timestamp, distance)] in
    set_beacon2 self (_cleanup_old_measurements self appended timestamp)
  else self.

(** The list selected by [beacon_num], with the setter of its field. *)
Definition distance_list_of (self : t) (beacon_num : Z)
  : option (list sample * (t -> list sample -> t)) :=
  if (beacon_num =? 1)%Z then Some (beacon1_distances self, set_beacon1)
  else if (beacon_num =? 2)%Z then Some (beacon2_distances self, set_beacon2)
  else None.

(** [sum(dist for _, dist in distance_list)]: the builtin adds from the
    left, starting at 0. *)
Definition total_of (distance_list : list sample) : R :=
  fold_left (fun acc s => acc + snd s) distance_list 0.

(** [distance_list[-1][0]] of a list known to be non-empty. *)
Definition latest_time_of (distance_list : list sample) : R :=
  fst (last distance_list (0, 0)).

(** [get_averaged_distance(beacon_num)] with the staleness threshold as an
    argument; the source reads it from the module constant, see
    [get_averaged_distance] below.  Returns the result and the object
    after the in-place clean-up. *)
Definition get_averaged_distance_with (timeout : R) (self : t)
    (current_time : R) (beacon_num : Z) : option R * t :=
  match distance_list_of self beacon_num with
  | None => (None, self)
  | Some (distance_list, store) =>
      let distance_list :=
        _cleanup_old_measurements self distance_list current_time in
      let self := store self distance_list in
      match distance_list with
      | [] => (None, self)
      | _ :: _ =>
          let latest_time := latest_time_of distance_list in
          if Rltb timeout (current_time - latest_time)
          then (None, self)
          else
            let total_distance := total_of distance_list in
            let count := List.length distance_list in
            (if (0 <? count)%nat
             then Some (total_distance / INR count) else None, self)
      end
  end.

Definition get_averaged_distance : t -> R -> Z -> option R * t :=
  get_averaged_distance_with DISTANCE_TIMEOUT_SECONDS.

(** [get_measurement_count(beacon_num)]: reads a length, takes no time
    and evicts nothing. *)
Definition get_measurement_count (self : t) (beacon_num : Z) : Z :=
  if (beacon_num =? 1)%Z then Z.of_nat (List.length (beacon1_distances self))
  else if (beacon_num =? 2)%Z
       then Z.of_nat (List.length (beacon2_distances self))
  else 0%Z.

End DistanceCollector.

(** ** Exceptions *)

Inductive exn : Type :=
| ZeroDivisionError
| TypeError
| AttributeError
| KeyError.

Inductive outcome (A : Type) : Type :=
| Return (a : A)
| Raise (e : exn).

Arguments Return {A} a.
Arguments Raise {A} e.

Definition bind {A B : Type} (m : outcome A) (k : A -> outcome B) : outcome B :=
  match m with
  | Return a => k a
  | Raise e => Raise e
  end.

Notation "x <- m ;; k" := (bind m (fun x => k))
  (at level 61, m at next level, right associativity).

(** Float division [a / b]: raises on a zero divisor. *)
Definition py_div (a b : R) : outcome R :=
  if Reqb b 0 then Raise ZeroDivisionError else Return (a / b).

(** ** PositionCalculator *)

Module PositionCalculator.

Record t : Type := mk {
  beacon1_pos : R * R;
  beacon2_pos : R * R
}.

(** [__init__(beacon1_pos, beacon2_pos)]: stores its arguments, no check. *)
Definition __init__ (beacon1_pos beacon2_pos : R * R) : t :=
  mk beacon1_pos beacon2_pos.

(** "Distance between beacons". *)
Definition beacon_distance (self : t) : R :=
  let '(x1, y1) := beacon1_pos self in
  let '(x2, y2) := beacon2_pos self in
  if Reqb y1 y2 then Rabs (x2 - x1)
  else sqrt ((x2 - x1) ^ 2 + (y2 - y1) ^ 2).

(** The body of the [try] block. *)
Definition try_block (self : t) (dist1 dist2 : R) : outcome (option (R * R)) :=
  let '(x1, y1) := beacon1_pos self in
  let '(x2, y2) := beacon2_pos self in
  let d := beacon_distance self in
  A <- py_div (d ^ 2 - dist2 ^ 2 + dist1 ^ 2) (2 * d) ;;
  let discriminant := dist1 ^ 2 - A ^ 2 in
  if Rltb discriminant 0 then Return None
  else
    let H := sqrt discriminant in
    xy <- (if Reqb y1 y2 then
             q <- py_div (A * (x2 - x1)) d ;;
             Return (q + x1, H)
           else
             q <- py_div (A * (x2 - x1)) d ;;
             r <- py_div (H * (x2 - x1)) d ;;
             Return (q + x1, r + y1)) ;;
    let '(x, y) := xy in
    let y := if Rltb y 0 then Rabs y else y in
    Return (Some (x, y)).

(** [calculate_position(dist1, dist2)]: [except Exception] turns every
    exception of the [try] block into [None]. *)
Definition calculate_position (self : t) (dist1 dist2 : R) : option (R * R) :=
  if Rleb dist1 0 || Rleb dist2 0 then None
  else
    match try_block self dist1 dist2 with
    | Return position => position
    | Raise _ => None
    end.

End PositionCalculator.

(** ** The tag reader: one line of the subprocess output *)

(** A value returned by [json.loads].  An object is the list of its
    key/value pairs, one per key; a number is an [int] or a [float]. *)
#[warnings="-register-all"]
Inductive json : Type :=
| JNull
| JBool (b : bool)
| JNum (r : R)
| JStr (s : string)
| JArr (items : list json)
| JObj (fields : list (string * json)).

(** What the reader hands to [logging]. *)
Inductive log_record : Type :=
| DEBUG_distance (beacon_num : Z) (distance_m : R)
| ERROR_reading (e : exn).

(** One turn of the [while] loop of [_read_output]. *)
Inductive turn : Type :=
| Break
| Continue (self : DistanceCollector.t) (logs : list log_record).

Open Scope string_scope.

(** [dict.get(key)] *)
Fixpoint dict_get (fields : list (string * json)) (key : string) : option json :=
  match fields with
  | [] => None
  | (k, v) :: rest => if String.eqb k key then Some v else dict_get rest key
  end.

(** [key in dict] *)
Definition dict_has (fields : list (string * json)) (key : string) : bool :=
  match dict_get fields key with Some _ => true | None => false end.

(** [value == text] for a string literal [text]. *)
Definition is_str (value : option json) (text : string) : bool :=
  match value with
  | Some (JStr s) => String.eqb s text
  | _ => false
  end.

(** [needle in text] on strings. *)
Fixpoint str_contains (needle text : string) : bool :=
  if String.prefix needle text then true
  else match text with
       | EmptyString => false
       | String _ rest => str_contains needle rest
       end.

(** The characters of a string, as [for c in text] yields them. *)
Fixpoint chars_of (text : string) : list json :=
  match text with
  | EmptyString => []
  | String c rest => JStr (String c EmptyString) :: chars_of rest
  end.

(** ['results' in data] *)
Definition contains_results (data : json) : outcome bool :=
  match data with
  | JObj fields => Return (dict_has fields "results")
  | JArr items =>
      Return (existsb (fun item => is_str (Some item) "results") items)
  | JStr s => Return (str_contains "results" s)
  | _ => Raise TypeError
  end.

(** [data['results']], reached once ['results' in data] holds. *)
Definition get_results (data : json) : outcome json :=
  match data with
  | JObj fields =>
      match dict_get fields "results" with
      | Some v => Return v
      | None => Raise KeyError
      end
  | _ => Raise TypeError
  end.

(** The values that [for result in v] yields. *)
Definition iterate (v : json) : outcome (list json) :=
  match v with
  | JArr items => Return items
  | JObj fields => Return (map (fun kv => JStr (fst kv)) fields)
  | JStr s => Return (chars_of s)
  | _ => Raise TypeError
  end.

(** [distance_cm / 100.0] *)
Definition cm_to_m (distance_cm : json) : outcome R :=
  match distance_cm with
  | JNum r => Return (r / 100)%R
  | JBool b => Return ((if b then 1 else 0) / 100)%R
  | _ => Raise TypeError
  end.

(** The body of [for result in data['results']]. *)
Definition handle_result (self : DistanceCollector.t) (timestamp : R)
    (result : json) : outcome (DistanceCollector.t * list log_record) :=
  match result with
  | JObj fields =>
      if is_str (dict_get fields "Status") "Ok"
         && dict_has fields "D_cm" && dict_has fields "Addr"
      then
        match dict_get fields "Addr", dict_get fields "D_cm" with
        | Some addr, Some distance_cm =>
            distance_m <- cm_to_m distance_cm ;;
            if is_str (Some addr) "0x0001" then
              Return (DistanceCollector._add_distance_measurement
                        self timestamp 1 distance_m,
                      [DEBUG_distance 1 distance_m])
            else if is_str (Some addr) "0x0002" then
              Return (DistanceCollector._add_distance_measurement
                        self timestamp 2 distance_m,
                      [DEBUG_distance 2 distance_m])
            else Return (self, [])
        | _, _ => Raise KeyError
        end
      else Return (self, [])
  | _ => Raise AttributeError
  end.

(** The [for] loop: samples recorded before an exception stay recorded. *)
Fixpoint for_results (self : DistanceCollector.t) (timestamp : R)
    (results : list json)
  : DistanceCollector.t * list log_record * option exn :=
  match results with
  | [] => (self, [], None)
  | result :: rest =>
      match handle_result self timestamp result with
      | Raise e => (self, [], Some e)
      | Return (self, logs) =>
          let '(self, more, e) := for_results self timestamp rest in
          (self, (logs ++ more)%list, e)
      end
  end.

(** [except Exception as e: if self.running: logging.error(...)] *)
Definition on_exception (self : DistanceCollector.t) (e : exn)
  : list log_record :=
  if DistanceCollector.running self then [ERROR_reading e] else [].

(** [if line.startswith('RAW: '): line = line[5:]] *)
Definition without_raw_prefix (line : string) : string :=
  if String.prefix "RAW: " line
  then String.substring 5 (String.length line - 5) line
  else line.

Section TagReader.

(** [json.loads]; [None] stands for [json.JSONDecodeError]. *)
Variable json_loads : string -> option json.
(** [str.strip] *)
Variable strip : string -> string.

(** One turn of [_read_output] on the line that [readline] returned at
    time [timestamp]. *)
Definition _read_output_turn (self : DistanceCollector.t) (timestamp : R)
    (line : string) : turn :=
  if negb (DistanceCollector.running self) then Break
  else if String.eqb line "" then Break
  else
    let line := strip line in
    if String.eqb line "" then Continue self []
    else
      let line := without_raw_prefix line in
      match json_loads line with
      | None => Continue self []
      | Some data =>
          match contains_results data with
          | Raise e => Continue self (on_exception self e)
          | Return false => Continue self []
          | Return true =>
              match (v <- get_results data ;; iterate v) with
              | Raise e => Continue self (on_exception self e)
              | Return results =>
                  match for_results self timestamp results with
                  | (self, logs, None) => Continue self logs
                  | (self, logs, Some e) =>
                      Continue self (logs ++ on_exception self e)%list
                  end
              end
          end
      end.

End TagReader.

(** ** The measurement stream of the specification *)

(** The sample that one entry of a ranging block stands for: status
    ['Ok'], [D_cm] divided by 100, address ['0x0001'] for beacon 1 and
    ['0x0002'] for beacon 2; any other entry stands for none. *)
Definition usable_entry (entry : json) : option (Z * R) :=
  match entry with
  | JObj fields =>
      if is_str (dict_get fields "Status") "Ok" then
        match dict_get fields "D_cm", dict_get fields "Addr" with
        | Some (JNum d_cm), Some (JStr addr) =>
            if String.eqb addr "0x0001" then Some (1%Z, (d_cm / 100)%R)
            else if String.eqb addr "0x0002" then Some (2%Z, (d_cm / 100)%R)
            else None
        | _, _ => None
        end
      else None
  | _ => None
  end.

Definition usable_entries (entries : list json) : list (Z * R) :=
  flat_map (fun entry =>
              match usable_entry entry with
              | Some s => [s]
              | None => []
              end) entries.

(** An entry of the documented shape: an object whose [D_cm], when it has
    one, is a number. *)
Definition entry_shaped (entry : json) : Prop :=
  match entry with
  | JObj fields =>
      match dict_get fields "D_cm" with
      | Some (JNum _) | None => True
      | Some _ => False
      end
  | _ => False
  end.

Close Scope string_scope.


(** ** PositioningSystem *)

Module PositioningSystem.

Record t : Type := mk {
  tag_collector : DistanceCollector.t;
  beacon1_port : string;
  beacon2_port : string;
  calculator : PositionCalculator.t;
  running : bool
}.

(** [__init__(tag_port, beacon1_port, beacon2_port)]: builds the collector
    with the default window and the calculator with the module constants;
    nothing is checked. *)
Definition __init__ (tag_port beacon1_port beacon2_port : string) : t :=
  mk (DistanceCollector.__init__ tag_port AVERAGING_WINDOW_SECONDS)
     beacon1_port beacon2_port
     (PositionCalculator.__init__ BEACON1_POSITION BEACON2_POSITION)
     false.

Definition set_tag_collector (self : t) (c : DistanceCollector.t) : t :=
  mk c (beacon1_port self) (beacon2_port self) (calculator self)
     (running self).

(** What one call of [_report_position] logs. *)
Inductive report : Type :=
| Position (x y : R) (dist1 : R) (count1 : Z) (dist2 : R) (count2 : Z)
| Calculation_failed (dist1 dist2 : R)
| Waiting_for_measurements (dist1 dist2 : option R).

(** [_report_position()]: the two averages read the clock one after the
    other ([time1], then [time2]). *)
Definition _report_position (self : t) (time1 time2 : R) : report * t :=
  let '(dist1, c) :=
    DistanceCollector.get_averaged_distance (tag_collector self) time1 1 in
  let '(dist2, c) := DistanceCollector.get_averaged_distance c time2 2 in
  let self := set_tag_collector self c in
  match dist1, dist2 with
  | Some d1, Some d2 =>
      match PositionCalculator.calculate_position (calculator self) d1 d2 with
      | Some (x, y) =>
          let count1 := DistanceCollector.get_measurement_count c 1 in
          let count2 := DistanceCollector.get_measurement_count c 2 in
          (Position x y d1 count1 d2 count2, self)
      | None => (Calculation_failed d1 d2, self)
      end
  | _, _ => (Waiting_for_measurements dist1 dist2, self)
  end.

End PositioningSystem.

(** ** Constructor calls

    A call [C(args)] is an expression that may raise.  The three
    [__init__] bodies hold assignments only (no [raise], no [assert], no
    comparison of their arguments), so each call returns its object. *)

Definition new_DistanceCollector (port : string) (averaging_window : R)
  : outcome DistanceCollector.t :=
  Return (DistanceCollector.__init__ port averaging_window).

Definition new_PositionCalculator (beacon1_pos beacon2_pos : R * R)
  : outcome PositionCalculator.t :=
  Return (PositionCalculator.__init__ beacon1_pos beacon2_pos).

Definition new_PositioningSystem (tag_port beacon1_port beacon2_port : string)
  : outcome PositioningSystem.t :=
  Return (PositioningSystem.__init__ tag_port beacon1_port beacon2_port).

(** ** Recording a sequence of measurements *)

(** A call [_add_distance_measurement(timestamp, beacon_num, distance)]. *)
Definition measurement : Type := Z * R * R.

Definition beacon_of (m : measurement) : Z := fst (fst m).
Definition sample_of (m : measurement) : sample := (snd (fst m), snd m).

Definition record (self : DistanceCollector.t) (m : measurement)
  : DistanceCollector.t :=
  DistanceCollector._add_distance_measurement
    self (fst (sample_of m)) (beacon_of m) (snd (sample_of m)).

Definition record_all (self : DistanceCollector.t) (ms : list measurement)
  : DistanceCollector.t :=
  fold_left record ms self.

(** The samples recorded for one beacon, in recording order. *)
Definition samples_for (beacon_num : Z) (ms : list measurement) : list sample :=
  map sample_of (filter (fun m => (beacon_of m =? beacon_num)%Z) ms).

(** Timestamps in non-decreasing order. *)
Definition nondecreasing (l : list sample) : Prop :=
  Sorted (fun a b => fst a <= fst b) l.

(** The sample recorded last, if any. *)
Definition latest (l : list sample) : option sample :=
  match l with
  | [] => None
  | _ :: _ => Some (last l (0, 0))
  end.

(** ** The window of the specification *)

(** [t] in [(now - window, now]]. *)
Definition in_half_open_window (now window : R) (s : sample) : bool :=
  Rltb (now - window) (fst s) && Rleb (fst s) now.

(** [t] in [[now - window, now]]. *)
Definition in_closed_window (now window : R) (s : sample) : bool :=
  Rleb (now - window) (fst s) && Rleb (fst s) now.

(** Arithmetic mean; [None] is "no data". *)
Definition mean (ds : list R) : option R :=
  match ds with
  | [] => None
  | _ :: _ => Some (fold_right Rplus 0 ds / INR (List.length ds))
  end.

Definition window_mean (inside : sample -> bool) (l : list sample) : option R :=
  mean (map snd (filter inside l)).

(** ** Auxiliary notions for the proofs *)

(** The sample passes the cutoff: it is not popped by the clean-up. *)
Definition kept (cutoff_time : R) (s : sample) : bool :=
  negb (Rltb (fst s) cutoff_time).

Definition by_time (a b : sample) : Prop := fst a <= fst b.

(** The list that [beacon_num] selects ([[]] for an unknown beacon). *)
Definition stored (self : DistanceCollector.t) (beacon_num : Z) : list sample :=
  match DistanceCollector.distance_list_of self beacon_num with
  | Some (l, _) => l
  | None => []
  end.

(** ** Executions of the collector

    The calls that change a collector, each with the reading of
    [time.time()] it uses. *)
Inductive operation : Type :=
| Record_sample (timestamp : R) (beacon_num : Z) (distance : R)
| Query_average (current_time : R) (beacon_num : Z).

Definition time_of (op : operation) : R :=
  match op with
  | Record_sample timestamp _ _ => timestamp
  | Query_average current_time _ => current_time
  end.

Definition perform (timeout : R) (self : DistanceCollector.t) (op : operation)
  : DistanceCollector.t :=
  match op with
  | Record_sample timestamp beacon_num distance =>
      DistanceCollector._add_distance_measurement
        self timestamp beacon_num distance
  | Query_average current_time beacon_num =>
      snd (DistanceCollector.get_averaged_distance_with
             timeout self current_time beacon_num)
  end.

Definition perform_all (timeout : R) (self : DistanceCollector.t)
    (ops : list operation) : DistanceCollector.t :=
  fold_left (perform timeout) ops self.

(** The clock never steps back from one call to the next. *)
Definition clock_nondecreasing (ops : list operation) : Prop :=
  Sorted Rle (map time_of ops).

(** The two beacons the collector knows. *)
Definition known_beacon (b : Z) : Prop := b = 1%Z \/ b = 2%Z.

(** Euclidean distance in the plane. *)
Definition euclid (p q : R * R) : R :=
  sqrt ((fst q - fst p) ^ 2 + (snd q - snd p) ^ 2).

(** The quantities of the solver, as the source names them. *)
Definition A_of (d dist1 dist2 : R) : R :=
  (d ^ 2 - dist2 ^ 2 + dist1 ^ 2) / (2 * d).

Definition discriminant_of (d dist1 dist2 : R) : R :=
  dist1 ^ 2 - A_of d dist1 dist2 ^ 2.

(** ** What an execution recorded *)

(** The samples that the [Record_sample] calls of an execution gave to one
    beacon, in call order. *)
Definition recorded (beacon_num : Z) (ops : list operation) : list sample :=
  flat_map (fun op =>
              match op with
              | Record_sample timestamp b distance =>
                  if (b =? beacon_num)%Z then [(timestamp, distance)] else []
              | Query_average _ _ => []
              end) ops.

(** The beacon a call names. *)
Definition beacon_of_op (op : operation) : Z :=
  match op with
  | Record_sample _ beacon_num _ => beacon_num
  | Query_average _ beacon_num => beacon_num
  end.

(** ** The report loop *)

(** [_position_reporter], from a given [last_report_time]: the turns of
    the [while self.running] loop.  Each turn reads the clock once
    ([current_time]); a turn that reports reads it twice more, inside the
    two averages.  The result lists the reports with the [current_time] of
    their turn. *)
Fixpoint _position_reporter_from (self : PositioningSystem.t)
    (last_report_time : R) (turns : list (R * R * R))
  : list (R * PositioningSystem.report) * PositioningSystem.t :=
  match turns with
  | [] => ([], self)
  | (current_time, time1, time2) :: rest =>
      if Rleb REPORT_INTERVAL_SECONDS (current_time - last_report_time) then
        let '(report, self) :=
          PositioningSystem._report_position self time1 time2 in
        let '(reports, self) :=
          _position_reporter_from self current_time rest in
        ((current_time, report) :: reports, self)
      else _position_reporter_from self last_report_time rest
  end.

(** [_position_reporter()]: [last_report_time = 0]. *)
Definition _position_reporter (self : PositioningSystem.t)
    (turns : list (R * R * R))
  : list (R * PositioningSystem.report) * PositioningSystem.t :=
  _position_reporter_from self 0 turns.

(** ** The reader loop *)


(** ** serial_collector.py: the tag session in raw format

    [example_usage.py] starts the tag as
    [serial_collector.py --port ... --format raw tag]: [start_tag] runs
    with [duration = None] and [output_format = 'raw']. *)

Open Scope string_scope.

(** [key in data] *)
Definition py_in (key : string) (data : json) : outcome bool :=
  match data with
  | JObj fields => Return (dict_has fields key)
  | JArr items => Return (existsb (fun item => is_str (Some item) key) items)
  | JStr s => Return (str_contains key s)
  | _ => Raise TypeError
  end.

(** [data[key]] for a string [key]. *)
Definition py_getitem (data : json) (key : string) : outcome json :=
  match data with
  | JObj fields =>
      match dict_get fields key with
      | Some v => Return v
      | None => Raise KeyError
      end
  | _ => Raise TypeError
  end.

(** [dict.get(key, default)]; [dict.get(key)] has the default [None]. *)
Definition dict_get_default (fields : list (string * json)) (key : string)
    (default : json) : json :=
  match dict_get fields key with
  | Some v => v
  | None => default
  end.

(** What [print] writes. *)
Inductive printed : Type :=
| Line (text : string)
| Error_during_tag_operation (e : exn).

Section SerialCollector.

(** [json.loads] ([None] stands for [json.JSONDecodeError]), [json.dumps]
    and [str]. *)
Variable json_loads : string -> option json.
Variable json_dumps : json -> string.
Variable py_str : json -> string.
(** [datetime.now().isoformat()] *)
Variable isoformat_now : string.
(** [re.search] with [distance_pattern], [rssi_pattern] and
    [timestamp_pattern], followed by the conversion of group 1. *)
Variable search_distance : string -> option R.
Variable search_rssi : string -> option R.
Variable search_device_timestamp : string -> option Z.

(** The [for result in data['results']] loop of [parse_ranging_data]. *)
Fixpoint parse_results (block_num : json) (results : list json)
  : outcome (list json) :=
  match results with
  | [] => Return []
  | result :: rest =>
      match result with
      | JObj fields =>
          if is_str (dict_get fields "Status") "Ok" then
            distance_m <-
              cm_to_m (dict_get_default fields "D_cm" (JNum 0)) ;;
            let parsed_result :=
              JObj [("timestamp", JStr isoformat_now);
                    ("block", block_num);
                    ("address",
                     dict_get_default fields "Addr" (JStr "Unknown"));
                    ("distance_cm", dict_get_default fields "D_cm" JNull);
                    ("distance_m", JNum distance_m);
                    ("pdoa_deg", dict_get_default fields "LPDoA_deg" (JNum 0));
                    ("laoa_deg", dict_get_default fields "LAoA_deg" (JNum 0));
                    ("raoa_deg", dict_get_default fields "RAoA_deg" (JNum 0));
                    ("fom", dict_get_default fields "LFoM" (JNum 0));
                    ("cfo_100ppm",
                     dict_get_default fields "CFO_100ppm" (JNum 0))] in
            parsed_results <- parse_results block_num rest ;;
            Return (parsed_result :: parsed_results)
          else parse_results block_num rest
      | _ => Raise AttributeError
      end
  end.

(** The fallback of [parse_ranging_data]: the three patterns. *)
Definition parse_patterns (line : string) : option (list (string * json)) :=
  let found :=
    (match search_distance line with
     | Some d => [("distance_m", JNum d)]
     | None => []
     end ++
     match search_rssi line with
     | Some r => [("rssi_dbm", JNum r)]
     | None => []
     end ++
     match search_device_timestamp line with
     | Some ts => [("device_timestamp", JNum (IZR ts))]
     | None => []
     end)%list in
  match found with
  | [] => None
  | _ :: _ =>
      Some ([("timestamp", JStr isoformat_now); ("raw_line", JStr line)]
              ++ found)%list
  end.

(** [parse_ranging_data(line)]: only [json.JSONDecodeError] is caught. *)
Definition parse_ranging_data (line : string)
  : outcome (option (list (string * json))) :=
  block <-
    match json_loads line with
    | None => Return None
    | Some data =>
        has_results <- py_in "results" data ;;
        has_block <-
          (if has_results then py_in "Block" data else Return false) ;;
        if has_block then
          block_num <- py_getitem data "Block" ;;
          results_value <- py_getitem data "results" ;;
          results <- iterate results_value ;;
          parsed_results <- parse_results block_num results ;;
          match parsed_results with
          | [] => Return None
          | _ :: _ =>
              Return
                (Some [("timestamp", JStr isoformat_now);
                       ("block", block_num);
                       ("results", JArr parsed_results);
                       ("count",
                        JNum (INR (List.length parsed_results)))])
          end
        else Return None
    end ;;
  match block with
  | Some parsed => Return (Some parsed)
  | None => Return (parse_patterns line)
  end.

(** The loop of the raw branch of [output_data]. *)
Fixpoint raw_results (results : list json) : outcome (list json) :=
  match results with
  | [] => Return []
  | result :: rest =>
      match result with
      | JObj fields =>
          let raw_result :=
            JObj [("Addr", dict_get_default fields "address" JNull);
                  ("Status", JStr "Ok");
                  ("D_cm", dict_get_default fields "distance_cm" JNull);
                  ("LPDoA_deg", dict_get_default fields "pdoa_deg" JNull);
                  ("LAoA_deg", dict_get_default fields "laoa_deg" JNull);
                  ("RAoA_deg", dict_get_default fields "raoa_deg" JNull);
                  ("LFoM", dict_get_default fields "fom" JNull);
                  ("CFO_100ppm",
                   dict_get_default fields "cfo_100ppm" JNull)] in
          more <- raw_results rest ;;
          Return (raw_result :: more)
      | _ => Raise AttributeError
      end
  end.

(** [print(value)] of a value that may be a string. *)
Definition text_of (value : json) : string :=
  match value with
  | JStr s => s
  | _ => py_str value
  end.

(** [output_data(data, 'raw')]: the lines it prints. *)
Definition output_data_raw (data : list (string * json))
  : outcome (list string) :=
  if dict_has data "results" then
    results_value <- py_getitem (JObj data) "results" ;;
    results <- iterate results_value ;;
    raws <- raw_results results ;;
    let raw_output :=
      JObj [("Block", dict_get_default data "block" JNull);
            ("results", JArr raws)] in
    Return [json_dumps raw_output]
  else
    Return [text_of (dict_get_default data "raw_line" (JStr (py_str (JObj data))))].

(** One turn of the [while True] loop of [start_tag] in raw format, on
    what [read_line] returned; [if parsed_data:] fails for [None] and for
    an empty dictionary. *)
Definition start_tag_turn (line : option string) : outcome (list string) :=
  match line with
  | None => Return []
  | Some line =>
      if String.eqb line "" then Return []
      else
        parsed_data <- parse_ranging_data line ;;
        match parsed_data with
        | Some (_ :: _ as data) => output_data_raw data
        | _ => Return ["RAW: " ++ line]
        end
  end.

(** The loop of [start_tag] over the successive results of [read_line]: an
    exception leaves the loop, is printed and ends the session. *)
Fixpoint start_tag_loop (lines : list (option string)) : list printed :=
  match lines with
  | [] => []
  | line :: rest =>
      match start_tag_turn line with
      | Return out => (map Line out ++ start_tag_loop rest)%list
      | Raise e => [Error_during_tag_operation e]
      end
  end.

End SerialCollector.

(** The end of line that [print] adds. *)
Definition newline : string := String (ascii_of_nat 10) EmptyString.

(** An entry of a device block that the collector can re-emit for the
    reader: an object whose [D_cm], if its status is ['Ok'], is a number. *)
Definition entry_measured (entry : json) : Prop :=
  match entry with
  | JObj fields =>
      is_str (dict_get fields "Status") "Ok" = true ->
      exists d_cm, dict_get fields "D_cm" = Some (JNum d_cm)
  | _ => False
  end.

(** The entry has status ['Ok']. *)
Definition entry_ok (entry : json) : Prop :=
  exists fields,
    entry = JObj fields /\ is_str (dict_get fields "Status") "Ok" = true.

Close Scope string_scope.


(** * Properties *)

(** ** Comparisons *)

Lemma Rltb_true a b : Rltb a b = true <-> a < b.
Proof. unfold Rltb; destruct (Rlt_dec a b); split; auto; discriminate. Qed.

Lemma Rltb_false a b : Rltb a b = false <-> b <= a.
Proof.
  unfold Rltb; destruct (Rlt_dec a b); split; auto; try discriminate; lra.
Qed.

Lemma Rleb_true a b : Rleb a b = true <-> a <= b.
Proof. unfold Rleb; destruct (Rle_dec a b); split; auto; discriminate. Qed.

Lemma Rleb_false a b : Rleb a b = false <-> b < a.
Proof.
  unfold Rleb; destruct (Rle_dec a b); split; auto; try discriminate; lra.
Qed.

Lemma Reqb_true a b : Reqb a b = true <-> a = b.
Proof. unfold Reqb; destruct (Req_dec_T a b); split; auto; discriminate. Qed.

Lemma Reqb_false a b : Reqb a b = false <-> a <> b.
Proof.
  unfold Reqb; destruct (Req_dec_T a b); split; auto; try discriminate.
  intros H; contradiction.
Qed.

(** Decide a concrete comparison: rewrite it to its truth value. *)
Ltac rcmp :=
  repeat match goal with
  | |- context [Rltb ?a ?b] =>
      first [ rewrite (proj2 (Rltb_true a b)) by lra
            | rewrite (proj2 (Rltb_false a b)) by lra ]
  | |- context [Rleb ?a ?b] =>
      first [ rewrite (proj2 (Rleb_true a b)) by lra
            | rewrite (proj2 (Rleb_false a b)) by lra ]
  | |- context [Reqb ?a ?b] =>
      first [ rewrite (proj2 (Reqb_true a b)) by lra
            | rewrite (proj2 (Reqb_false a b)) by lra ]
  end.

(** Evaluation on concrete inputs: unfold the program, decide the
    comparisons of reals by [lra]. *)
Ltac run :=
  repeat (cbn -[Rltb Rleb Reqb Rplus Rminus Rmult Rdiv Rinv Ropp
                  INR IZR sqrt Rabs pow];
          rcmp).

(** Close an equation between reals that evaluation has exposed. *)
Ltac finish := try f_equal; cbn [INR]; lra.

(** A concrete list is in timestamp order. *)
Ltac sorted_by_lra :=
  unfold nondecreasing; cbn -[Rle];
  repeat (constructor; cbn -[Rle]; try lra).

(** ** Lists of samples *)

Import DistanceCollector.

Lemma kept_true c s : kept c s = true <-> c <= fst s.
Proof.
  unfold kept. rewrite negb_true_iff. apply Rltb_false.
Qed.

Lemma filter_weaker {A} (p q : A -> bool) (l : list A) :
  (forall x, In x l -> p x = true -> q x = true) ->
  filter p (filter q l) = filter p l.
Proof.
  induction l as [|a l IH]; intros Hpq; simpl; [reflexivity|].
  assert (IH' : filter p (filter q l) = filter p l).
  { apply IH. intros x Hx. apply Hpq. now right. }
  destruct (q a) eqn:Hq; simpl.
  - now rewrite IH'.
  - destruct (p a) eqn:Hp.
    + rewrite (Hpq a (or_introl eq_refl) Hp) in Hq. discriminate.
    + exact IH'.
Qed.

Lemma filter_all {A} (p : A -> bool) (l : list A) :
  Forall (fun x => p x = true) l -> filter p l = l.
Proof.
  induction 1 as [|a l Ha _ IH]; simpl; [reflexivity|].
  now rewrite Ha, IH.
Qed.

Lemma by_time_trans : Relations_1.Transitive by_time.
Proof. intros a b c; unfold by_time; lra. Qed.

Lemma nondecreasing_strong l : nondecreasing l <-> StronglySorted by_time l.
Proof.
  split.
  - apply Sorted_StronglySorted, by_time_trans.
  - apply StronglySorted_Sorted.
Qed.

Lemma StronglySorted_snoc {A} (le : A -> A -> Prop) (l : list A) (x : A) :
  StronglySorted le (l ++ [x]) <->
  StronglySorted le l /\ Forall (fun a => le a x) l.
Proof.
  induction l as [|a l IH]; simpl.
  - split; intros _; [split; constructor | repeat constructor].
  - split.
    + intros H. inversion H as [|? ? Hs Hall]; subst.
      apply IH in Hs. destruct Hs as [Hs Hle].
      apply Forall_app in Hall. destruct Hall as [Hall Hlast].
      split.
      * now constructor.
      * constructor; [|exact Hle]. now inversion Hlast.
    + intros [H Hle]. inversion H as [|? ? Hs Hall]; subst.
      inversion Hle as [|? ? Ha Hle']; subst.
      constructor.
      * apply IH. now split.
      * apply Forall_app. split; [exact Hall|].
        constructor; [exact Ha | constructor].
Qed.

Lemma strong_snoc l s :
  StronglySorted by_time (l ++ [s]) <->
  StronglySorted by_time l /\ Forall (fun a => fst a <= fst s) l.
Proof. apply StronglySorted_snoc. Qed.

Lemma strong_filter (p : sample -> bool) l :
  StronglySorted by_time l -> StronglySorted by_time (filter p l).
Proof.
  induction 1 as [|a l Hs IH Hall]; simpl; [constructor|].
  destruct (p a); [|exact IH].
  constructor; [exact IH|].
  rewrite Forall_forall in *. intros x Hx. apply Hall.
  apply filter_In in Hx. tauto.
Qed.

(** On a list in timestamp order, popping from the front is a filter. *)
Lemma pop_front_sorted c l :
  StronglySorted by_time l -> pop_front_while_older c l = filter (kept c) l.
Proof.
  induction 1 as [|a l Hs IH Hall]; simpl; [reflexivity|].
  unfold kept at 1. destruct (Rltb (fst a) c) eqn:Ha; simpl; [exact IH|].
  f_equal. symmetry. apply filter_all.
  apply Rltb_false in Ha.
  eapply Forall_impl; [|exact Hall].
  intros b Hb. apply kept_true. unfold by_time in Hb. lra.
Qed.

(** What the clean-up leaves is a suffix: the popped samples are older
    than the cutoff and the front of the rest is not. *)
Lemma pop_front_suffix c l :
  exists popped,
    l = popped ++ pop_front_while_older c l /\
    Forall (fun s => fst s < c) popped /\
    (forall s rest, pop_front_while_older c l = s :: rest -> c <= fst s).
Proof.
  induction l as [|a l (popped & Heq & Hold & Hfront)]; simpl.
  - exists []. repeat split; [constructor | discriminate].
  - destruct (Rltb (fst a) c) eqn:Ha.
    + exists (a :: popped). repeat split.
      * simpl. now f_equal.
      * constructor; [now apply Rltb_true | exact Hold].
      * exact Hfront.
    + exists []. repeat split; [constructor|].
      intros s rest [= <- _]. now apply Rltb_false.
Qed.

Lemma pop_front_incl c l : incl (pop_front_while_older c l) l.
Proof.
  destruct (pop_front_suffix c l) as (popped & Heq & _).
  intros x Hx. rewrite Heq. apply in_or_app. now right.
Qed.

Lemma last_of_app {A} (l1 l2 : list A) (d : A) :
  l2 <> [] -> last (l1 ++ l2) d = last l2 d.
Proof.
  intros Hne. induction l1 as [|a l1 IH]; simpl; [reflexivity|].
  rewrite IH. destruct (l1 ++ l2) eqn:E; [|reflexivity].
  apply app_eq_nil in E. tauto.
Qed.

Lemma pop_front_last c l d :
  pop_front_while_older c l <> [] ->
  last (pop_front_while_older c l) d = last l d.
Proof.
  intros Hne. destruct (pop_front_suffix c l) as (popped & Heq & _).
  rewrite Heq at 2. now rewrite last_of_app.
Qed.

Lemma total_of_from acc (l : list sample) :
  fold_left (fun acc s => acc + snd s) l acc
  = acc + fold_right Rplus 0 (map snd l).
Proof.
  revert acc; induction l as [|a l IH]; intros acc; simpl; [lra|].
  rewrite IH. lra.
Qed.

Lemma total_of_sum l : total_of l = fold_right Rplus 0 (map snd l).
Proof. unfold total_of. rewrite total_of_from. lra. Qed.

(** ** The collector, one beacon at a time *)

Lemma record_is_add self timestamp b d :
  record self (b, timestamp, d)
  = _add_distance_measurement self timestamp b d.
Proof. reflexivity. Qed.

Lemma stored_record self m b :
  known_beacon b ->
  stored (record self m) b =
  if (beacon_of m =? b)%Z
  then pop_front_while_older (fst (sample_of m) - averaging_window self)
         (stored self b ++ [sample_of m])
  else stored self b.
Proof.
  intros Hb. unfold record, _add_distance_measurement, stored,
    distance_list_of, _cleanup_old_measurements.
  destruct (sample_of m) as [ts d]; simpl fst; simpl snd.
  destruct Hb as [-> | ->];
    destruct (Z.eqb_spec (beacon_of m) 1) as [E1|E1];
    destruct (Z.eqb_spec (beacon_of m) 2) as [E2|E2];
    simpl; try reflexivity; try lia.
Qed.

Lemma window_record self m :
  averaging_window (record self m) = averaging_window self.
Proof.
  unfold record, _add_distance_measurement.
  destruct (beacon_of m =? 1)%Z; [reflexivity|].
  destruct (beacon_of m =? 2)%Z; reflexivity.
Qed.

Lemma window_record_all ms self :
  averaging_window (record_all self ms) = averaging_window self.
Proof.
  unfold record_all.
  revert self; induction ms as [|m ms IH]; intros self; simpl; [reflexivity|].
  rewrite IH. apply window_record.
Qed.

Lemma samples_for_snoc b ms m :
  samples_for b (ms ++ [m]) =
  samples_for b ms ++ (if (beacon_of m =? b)%Z then [sample_of m] else []).
Proof.
  unfold samples_for. rewrite filter_app, map_app. simpl.
  destruct (beacon_of m =? b)%Z; reflexivity.
Qed.

(** The average, as a function of the list the beacon selects. *)
Lemma averaged_distance_stored timeout self now b :
  known_beacon b ->
  fst (get_averaged_distance_with timeout self now b) =
  match pop_front_while_older (now - averaging_window self) (stored self b) with
  | [] => None
  | l =>
      if Rltb timeout (now - latest_time_of l) then None
      else Some (total_of l / INR (List.length l))
  end.
Proof.
  intros Hb. unfold get_averaged_distance_with, stored, distance_list_of,
    _cleanup_old_measurements.
  destruct Hb as [-> | ->]; simpl;
    match goal with
    | |- context [pop_front_while_older ?c ?l] =>
        destruct (pop_front_while_older c l) as [|s rest]
    end; try reflexivity;
    destruct (Rltb timeout _); reflexivity.
Qed.

Lemma stored_after_average timeout self now b :
  known_beacon b ->
  stored (snd (get_averaged_distance_with timeout self now b)) b =
  pop_front_while_older (now - averaging_window self) (stored self b).
Proof.
  intros Hb. unfold get_averaged_distance_with, stored, distance_list_of,
    _cleanup_old_measurements.
  destruct Hb as [-> | ->]; simpl;
    match goal with
    | |- context [pop_front_while_older ?c ?l] =>
        destruct (pop_front_while_older c l) as [|s rest]
    end; try reflexivity;
    destruct (Rltb timeout _); reflexivity.
Qed.

(** Recording samples in timestamp order keeps, for each beacon, exactly
    the recorded samples that no cutoff seen so far has excluded. *)
Lemma record_all_window self b ms :
  known_beacon b ->
  stored self b = [] ->
  nondecreasing (samples_for b ms) ->
  StronglySorted by_time (stored (record_all self ms) b) /\
  incl (stored (record_all self ms) b) (samples_for b ms) /\
  forall c,
    Forall (fun x => fst x - averaging_window self <= c) (samples_for b ms) ->
    filter (kept c) (stored (record_all self ms) b)
    = filter (kept c) (samples_for b ms).
Proof.
  intros Hb Hempty. induction ms as [|m ms IH] using rev_ind; intros Hsorted.
  - simpl. rewrite Hempty. repeat split; [constructor | apply incl_refl].
  - unfold record_all in *. rewrite fold_left_app. simpl.
    rewrite samples_for_snoc in *. rewrite stored_record by exact Hb.
    fold (record_all self ms) in *. rewrite window_record_all.
    destruct (beacon_of m =? b)%Z.
    2:{ rewrite app_nil_r in *. now apply IH. }
    apply nondecreasing_strong, strong_snoc in Hsorted.
    destruct Hsorted as [Hsorted Hle].
    destruct (IH (proj2 (nondecreasing_strong _) Hsorted))
      as (IHs & IHincl & IHfilter).
    assert (Happ : StronglySorted by_time
                     (stored (record_all self ms) b ++ [sample_of m])).
    { apply strong_snoc. split; [exact IHs|].
      rewrite Forall_forall in *. intros x Hx. apply Hle, IHincl, Hx. }
    rewrite (pop_front_sorted _ _ Happ).
    split; [now apply strong_filter|]. split.
    + intros x Hx. apply filter_In in Hx. destruct Hx as [Hx _].
      apply in_app_or in Hx. apply in_or_app.
      destruct Hx as [Hx|Hx]; [left; now apply IHincl | now right].
    + intros c Hc. apply Forall_app in Hc. destruct Hc as [Hc Hm].
      rewrite filter_weaker.
      * rewrite !filter_app. now rewrite (IHfilter c Hc).
      * intros x _ Hx. apply kept_true in Hx. apply kept_true.
        inversion Hm; subst. lra.
Qed.

Lemma mean_of_samples (l : list sample) :
  l <> [] ->
  Some (total_of l / INR (List.length l)) = mean (map snd l).
Proof.
  intros Hne. destruct l as [|s l]; [contradiction|].
  unfold mean. rewrite total_of_sum. cbn [map List.length].
  now rewrite length_map.
Qed.

(** Among samples not later than [now], the closed window holds the ones
    that pass the cutoff [now - window]. *)
Lemma closed_window_kept now window (l : list sample) :
  Forall (fun s => fst s <= now) l ->
  filter (in_closed_window now window) l = filter (kept (now - window)) l.
Proof.
  intros Hnow. apply filter_ext_in. intros s Hs.
  rewrite Forall_forall in Hnow. specialize (Hnow s Hs).
  unfold in_closed_window, kept.
  rewrite (proj2 (Rleb_true (fst s) now) Hnow), andb_true_r.
  destruct (Rleb (now - window) (fst s)) eqn:E.
  - apply Rleb_true in E. symmetry. apply negb_true_iff, Rltb_false, E.
  - apply Rleb_false in E. symmetry. apply negb_false_iff, Rltb_true, E.
Qed.

(** At a query no earlier than the recorded timestamps, the list left by
    the clean-up is the closed window of the recorded samples. *)
Lemma cleaned_is_closed_window self b ms now :
  known_beacon b ->
  stored self b = [] ->
  nondecreasing (samples_for b ms) ->
  Forall (fun s => fst s <= now) (samples_for b ms) ->
  pop_front_while_older (now - averaging_window self)
    (stored (record_all self ms) b)
  = filter (in_closed_window now (averaging_window self)) (samples_for b ms).
Proof.
  intros Hb Hempty Hsorted Hnow.
  destruct (record_all_window self b ms Hb Hempty Hsorted)
    as (Hs & _ & Hfilter).
  rewrite (pop_front_sorted _ _ Hs), Hfilter.
  - symmetry. now apply closed_window_kept.
  - eapply Forall_impl; [|exact Hnow]. simpl. intros s Hs'. lra.
Qed.

(** C1 (amended).  For samples recorded in non-decreasing timestamp order
    and a query at a time [now] not earlier than any of them:
    if the latest sample passes the staleness check,
    [get_averaged_distance] returns the arithmetic mean of exactly the
    recorded distances whose timestamp lies in the closed interval
    [[now - averaging_window, now]]; and it returns [None] when no sample
    lies in that interval.  A sample whose age equals the window is still
    averaged. *)
Theorem window_correctness port window b ms now :
  known_beacon b ->
  nondecreasing (samples_for b ms) ->
  Forall (fun s => fst s <= now) (samples_for b ms) ->
  let result :=
    fst (get_averaged_distance (record_all (__init__ port window) ms) now b) in
  let expected := window_mean (in_closed_window now window) (samples_for b ms) in
  ((forall s, latest (samples_for b ms) = Some s ->
              now - fst s <= DISTANCE_TIMEOUT_SECONDS) ->
   result = expected) /\
  (expected = None -> result = None).
Proof.
  intros Hb Hsorted Hnow result expected. subst result expected.
  set (self := __init__ port window).
  assert (Hempty : stored self b = []) by (destruct Hb as [-> | ->]; reflexivity).
  unfold get_averaged_distance. rewrite averaged_distance_stored by exact Hb.
  rewrite window_record_all.
  rewrite (cleaned_is_closed_window self b ms now Hb Hempty Hsorted Hnow).
  change (averaging_window self) with window.
  unfold window_mean.
  assert (Hpop : filter (in_closed_window now window) (samples_for b ms)
                 = pop_front_while_older (now - window) (samples_for b ms)).
  { rewrite (closed_window_kept now window _ Hnow). symmetry.
    apply pop_front_sorted. now apply nondecreasing_strong. }
  destruct (filter (in_closed_window now window) (samples_for b ms))
    as [|s0 rest] eqn:HW; [split; reflexivity|].
  split; [|discriminate].
  intros Hfresh.
  assert (Hlast : latest_time_of (s0 :: rest)
                  = fst (last (samples_for b ms) (0, 0))).
  { unfold latest_time_of. rewrite Hpop. rewrite pop_front_last; [reflexivity|].
    rewrite <- Hpop. discriminate. }
  cbv beta iota zeta. rewrite Hlast.
  assert (Hage : now - fst (last (samples_for b ms) (0, 0))
                 <= DISTANCE_TIMEOUT_SECONDS).
  { apply Hfresh. unfold latest.
    destruct (samples_for b ms); [discriminate HW | reflexivity]. }
  rewrite (proj2 (Rltb_false _ _) Hage).
  apply mean_of_samples. discriminate.
Qed.

Open Scope string_scope.

(** The eviction scenario, through the theorem: window 2.0 s, samples at
    t = 0.0 (1.0 m), 1.0 (1.2 m), 2.1 (1.4 m), query at 2.1: the sample at
    0.0 is out and the result is the mean of the other two. *)
Lemma window_correctness_witness :
  fst (get_averaged_distance
         (record_all (__init__ "tag" 2)
            [(1%Z, 0, 1); (1%Z, 1, 1.2); (1%Z, 2.1, 1.4)]) 2.1 1)
  = Some 1.3.
Proof.
  destruct (window_correctness "tag" 2 1
              [(1%Z, 0, 1); (1%Z, 1, 1.2); (1%Z, 2.1, 1.4)] 2.1)
    as [Hmean _].
  - now left.
  - sorted_by_lra.
  - cbn -[Rle]. repeat (constructor; cbn -[Rle]; try lra).
  - rewrite Hmean.
    + unfold window_mean, in_closed_window. run. finish.
    + cbn -[Rle Rminus]. intros s [= <-].
      unfold DISTANCE_TIMEOUT_SECONDS. cbn -[Rle Rminus]. lra.
Defined.

(** C1 as stated fails on the boundary: with window 2.0 s and samples at
    t = 0.0 (1.0 m) and t = 2.0 (2.0 m), the query at 2.0 averages both
    (1.5 m), while the half-open interval (0.0, 2.0] holds the second
    sample only (2.0 m). *)
Lemma window_correctness_counterexample :
  let ms := [(1%Z, 0, 1); (1%Z, 2, 2)] in
  nondecreasing (samples_for 1 ms) /\
  Forall (fun s => fst s <= 2) (samples_for 1 ms) /\
  (forall s, latest (samples_for 1 ms) = Some s ->
             2 - fst s <= DISTANCE_TIMEOUT_SECONDS) /\
  fst (get_averaged_distance (record_all (__init__ "tag" 2) ms) 2 1)
    = Some 1.5 /\
  window_mean (in_half_open_window 2 2) (samples_for 1 ms) = Some 2 /\
  fst (get_averaged_distance (record_all (__init__ "tag" 2) ms) 2 1)
    <> window_mean (in_half_open_window 2 2) (samples_for 1 ms).
Proof.
  assert (Hcode :
    fst (get_averaged_distance
           (record_all (__init__ "tag" 2) [(1%Z, 0, 1); (1%Z, 2, 2)]) 2 1)
    = Some 1.5).
  { unfold get_averaged_distance, get_averaged_distance_with,
      DISTANCE_TIMEOUT_SECONDS, total_of. run. finish. }
  assert (Hspec :
    window_mean (in_half_open_window 2 2)
      (samples_for 1 [(1%Z, 0, 1); (1%Z, 2, 2)]) = Some 2).
  { unfold window_mean, in_half_open_window. run. finish. }
  cbv zeta. repeat split.
  - sorted_by_lra.
  - cbn -[Rle]. repeat (constructor; cbn -[Rle]; try lra).
  - cbn -[Rle Rminus]. intros s [= <-].
    unfold DISTANCE_TIMEOUT_SECONDS. cbn -[Rle Rminus]. lra.
  - exact Hcode.
  - exact Hspec.
  - rewrite Hcode, Hspec. intros [= H]. lra.
Qed.

Close Scope string_scope.

(** ** Staleness *)

Lemma unknown_beacon self b :
  known_beacon b \/ distance_list_of self b = None.
Proof.
  unfold known_beacon, distance_list_of.
  destruct (Z.eqb_spec b 1); [now left; left|].
  destruct (Z.eqb_spec b 2); [now left; right | now right].
Qed.

Lemma latest_last (l : list sample) s :
  latest l = Some s -> l <> [] /\ last l (0, 0) = s.
Proof.
  destruct l; [discriminate|]. intros [= <-]. split; [discriminate | reflexivity].
Qed.

(** With a non-negative window, a recorded sample is the latest one of its
    beacon's list: the clean-up that follows the append never pops it. *)
Lemma latest_after_record self m :
  known_beacon (beacon_of m) ->
  0 <= averaging_window self ->
  latest (stored (record self m) (beacon_of m)) = Some (sample_of m).
Proof.
  intros Hb Hw. rewrite stored_record by exact Hb. rewrite Z.eqb_refl.
  set (c := fst (sample_of m) - averaging_window self).
  destruct (pop_front_suffix c (stored self (beacon_of m) ++ [sample_of m]))
    as (popped & Heq & Hold & _).
  destruct (pop_front_while_older c (stored self (beacon_of m) ++ [sample_of m]))
    as [|s rest] eqn:E.
  - exfalso. rewrite app_nil_r in Heq. subst popped.
    apply Forall_app in Hold. destruct Hold as [_ Hold].
    inversion Hold; subst. unfold c in *. lra.
  - unfold latest. f_equal. rewrite <- E.
    rewrite pop_front_last by (rewrite E; discriminate).
    apply last_last.
Qed.

(** C2 (amended).  If the most recent sample stored for a beacon has
    [now - t > DISTANCE_TIMEOUT_SECONDS], [get_averaged_distance] returns
    [None], whatever other samples are stored; this is the very result of
    an empty window: the code has no separate "stale" value. *)
Theorem stale_is_no_data self now b s :
  latest (stored self b) = Some s ->
  DISTANCE_TIMEOUT_SECONDS < now - fst s ->
  fst (get_averaged_distance self now b) = None /\
  fst (get_averaged_distance self now b)
  = fst (get_averaged_distance
           (__init__ (port self) (averaging_window self)) now b).
Proof.
  intros Hlatest Hstale.
  assert (Hnone : fst (get_averaged_distance self now b) = None).
  { destruct (unknown_beacon self b) as [Hb|Hb].
    - unfold get_averaged_distance.
      rewrite averaged_distance_stored by exact Hb.
      apply latest_last in Hlatest. destruct Hlatest as [_ Hlast].
      destruct (pop_front_while_older _ (stored self b)) as [|s0 rest] eqn:E;
        [reflexivity|].
      unfold latest_time_of. rewrite <- E.
      rewrite pop_front_last by (rewrite E; discriminate).
      rewrite Hlast. now rewrite (proj2 (Rltb_true _ _) Hstale).
    - unfold stored in Hlatest. rewrite Hb in Hlatest. discriminate. }
  split; [exact Hnone|]. rewrite Hnone.
  unfold get_averaged_distance, get_averaged_distance_with, distance_list_of.
  destruct (b =? 1)%Z; [reflexivity|]. destruct (b =? 2)%Z; reflexivity.
Qed.

Open Scope string_scope.

(** One sample at t = 0 in a 10 s window, queried at t = 7: still in the
    window, older than the 5 s threshold. *)
Lemma stale_is_no_data_witness :
  fst (get_averaged_distance
         (record (__init__ "tag" 10) (1%Z, 0, 1)) 7 1) = None.
Proof.
  apply (stale_is_no_data (record (__init__ "tag" 10) (1%Z, 0, 1)) 7 1 (0, 1)).
  - unfold stored. run. reflexivity.
  - unfold DISTANCE_TIMEOUT_SECONDS. cbn -[Rlt Rminus]. lra.
Defined.

(** C2 as stated asks for a "stale" result that differs from "no data".
    With window 10 s, one sample at t = 0 and a query at t = 7 the
    staleness test fires (7 > 5), and the result is the one an empty
    collector gives. *)
Lemma stale_is_no_data_counterexample :
  let stale := record (__init__ "tag" 10) (1%Z, 0, 1) in
  let empty := __init__ "tag" 10 in
  latest (stored stale 1) = Some (0, 1) /\
  DISTANCE_TIMEOUT_SECONDS < 7 - 0 /\
  stored empty 1 = [] /\
  ~ fst (get_averaged_distance stale 7 1)
    <> fst (get_averaged_distance empty 7 1).
Proof.
  cbv zeta. repeat split.
  - unfold stored. run. reflexivity.
  - unfold DISTANCE_TIMEOUT_SECONDS. lra.
  - intros H. apply H.
    unfold get_averaged_distance, get_averaged_distance_with,
      DISTANCE_TIMEOUT_SECONDS. run. reflexivity.
Qed.

Close Scope string_scope.

(** ** Timestamp order is an invariant of the collector *)

Lemma strong_pop_front c l :
  StronglySorted by_time l -> StronglySorted by_time (pop_front_while_older c l).
Proof.
  intros H. rewrite (pop_front_sorted c l H). now apply strong_filter.
Qed.

Lemma stored_other_after_average timeout self now b b' :
  b' <> b ->
  stored (snd (get_averaged_distance_with timeout self now b)) b' = stored self b'.
Proof.
  intros Hneq. unfold get_averaged_distance_with, stored, distance_list_of,
    _cleanup_old_measurements.
  destruct (Z.eqb_spec b 1) as [->|]; [|destruct (Z.eqb_spec b 2) as [->|]];
    simpl; try reflexivity;
    match goal with
    | |- context [pop_front_while_older ?c ?l] =>
        destruct (pop_front_while_older c l) as [|s rest]
    end;
    try destruct (Rltb timeout _); simpl;
    destruct (Z.eqb_spec b' 1); destruct (Z.eqb_spec b' 2);
    try reflexivity; try lia.
Qed.

(** On a list in timestamp order the last sample left by the clean-up is
    no older than the window, and a threshold above the window never
    fires. *)
Lemma staleness_on_sorted timeout self now b :
  nondecreasing (stored self b) ->
  let remaining := _cleanup_old_measurements self (stored self b) now in
  (forall v, fst (get_averaged_distance_with timeout self now b) = Some v ->
     exists s, latest remaining = Some s /\
               now - fst s <= averaging_window self) /\
  (averaging_window self < timeout ->
     fst (get_averaged_distance_with timeout self now b)
     = mean (map snd remaining)).
Proof.
  intros Hsorted remaining. subst remaining.
  unfold _cleanup_old_measurements.
  destruct (unknown_beacon self b) as [Hb|Hb].
  2:{ unfold get_averaged_distance_with, stored. rewrite Hb. simpl.
      split; [discriminate | reflexivity]. }
  rewrite averaged_distance_stored by exact Hb.
  apply nondecreasing_strong in Hsorted.
  pose proof (strong_pop_front (now - averaging_window self) _ Hsorted) as Hs.
  destruct (pop_front_suffix (now - averaging_window self) (stored self b))
    as (_ & _ & _ & Hfront).
  destruct (pop_front_while_older (now - averaging_window self) (stored self b))
    as [|s0 rest] eqn:E.
  { split; [discriminate | reflexivity]. }
  assert (Hage : now - latest_time_of (s0 :: rest) <= averaging_window self).
  { specialize (Hfront s0 rest eq_refl).
    assert (Hle : fst s0 <= latest_time_of (s0 :: rest)).
    { unfold latest_time_of. destruct rest as [|s1 rest']; [simpl; lra|].
      inversion Hs as [|? ? _ Hall]; subst.
      rewrite Forall_forall in Hall. apply Hall.
      change (s0 :: s1 :: rest') with ([s0] ++ s1 :: rest').
      rewrite last_of_app by discriminate.
      destruct (exists_last (l := s1 :: rest')) as (l' & a & Hl');
        [discriminate|].
      rewrite Hl', last_last. apply in_or_app. right. now left. }
    lra. }
  split.
  - intros v _. exists (last (s0 :: rest) (0, 0)). split; [reflexivity|].
    exact Hage.
  - intros Hw.
    assert (Hfalse : Rltb timeout (now - latest_time_of (s0 :: rest)) = false)
      by (apply Rltb_false; lra).
    cbv beta iota zeta. rewrite Hfalse. apply mean_of_samples. discriminate.
Qed.

Lemma window_perform timeout self op :
  averaging_window (perform timeout self op) = averaging_window self.
Proof.
  destruct op as [timestamp b distance | current_time b]; simpl perform.
  - rewrite <- record_is_add. apply window_record.
  - unfold get_averaged_distance_with, distance_list_of.
    destruct (b =? 1)%Z; [|destruct (b =? 2)%Z]; simpl;
      try reflexivity;
      match goal with
      | |- context [_cleanup_old_measurements ?s ?l ?c] =>
          destruct (_cleanup_old_measurements s l c)
      end; try reflexivity;
      destruct (Rltb timeout _); reflexivity.
Qed.

Lemma window_perform_all timeout ops self :
  averaging_window (perform_all timeout self ops) = averaging_window self.
Proof.
  unfold perform_all.
  revert self; induction ops as [|op ops IH]; intros self; simpl;
    [reflexivity|].
  rewrite IH. apply window_perform.
Qed.

(** Along an execution with a non-decreasing clock every stored list is in
    timestamp order, and every stored timestamp is the reading of an
    earlier call. *)
Lemma execution_invariant timeout port window ops b :
  clock_nondecreasing ops ->
  known_beacon b ->
  StronglySorted by_time
    (stored (perform_all timeout (__init__ port window) ops) b) /\
  Forall (fun s => In (fst s) (map time_of ops))
    (stored (perform_all timeout (__init__ port window) ops) b).
Proof.
  intros Hclock Hb. unfold clock_nondecreasing in Hclock.
  induction ops as [|op ops IH] using rev_ind.
  - assert (E : stored (__init__ port window) b = [])
      by (destruct Hb as [-> | ->]; reflexivity).
    simpl. rewrite E. split; constructor.
  - rewrite map_app in Hclock. simpl in Hclock.
    apply Sorted_StronglySorted in Hclock; [|intros x y z; apply Rle_trans].
    apply StronglySorted_snoc in Hclock. destruct Hclock as [Hclock Hle].
    destruct (IH (StronglySorted_Sorted Hclock)) as [IHs IHin]. clear IH.
    unfold perform_all in *. rewrite fold_left_app. simpl.
    set (self := fold_left (perform timeout) ops (__init__ port window)) in *.
    assert (Hbound : Forall (fun s => fst s <= time_of op) (stored self b)).
    { rewrite Forall_forall in *. intros s Hs. apply Hle, IHin, Hs. }
    assert (Hgrow : forall l d,
               incl l (stored self b ++ [(time_of op, d)]) ->
               Forall (fun s => In (fst s) (map time_of (ops ++ [op]))) l).
    { intros l d Hincl. rewrite Forall_forall. intros s Hs.
      rewrite map_app. apply in_or_app. apply Hincl, in_app_or in Hs.
      destruct Hs as [Hs | [<- | []]].
      - left. rewrite Forall_forall in IHin. now apply IHin.
      - right. now left. }
    destruct op as [timestamp b' distance | current_time b']; simpl perform.
    + rewrite <- record_is_add, stored_record by exact Hb.
      unfold beacon_of, sample_of; simpl fst; simpl snd.
      destruct (Z.eqb_spec b' b) as [->|Hneq].
      * split.
        -- apply strong_pop_front, strong_snoc. now split.
        -- apply (Hgrow _ distance). apply pop_front_incl.
      * split; [exact IHs|].
        apply (Hgrow _ 0). apply incl_appl, incl_refl.
    + destruct (Z.eq_dec b b') as [<-|Hneq].
      * rewrite stored_after_average by exact Hb. split.
        -- now apply strong_pop_front.
        -- apply (Hgrow _ 0). apply incl_appl, pop_front_incl.
      * rewrite stored_other_after_average by exact Hneq.
        split; [exact IHs|].
        apply (Hgrow _ 0). apply incl_appl, incl_refl.
Qed.


Open Scope string_scope.


Close Scope string_scope.

(** ** Sample count *)

Lemma count_is_length self b :
  get_measurement_count self b = Z.of_nat (List.length (stored self b)).
Proof.
  unfold get_measurement_count, stored, distance_list_of.
  destruct (b =? 1)%Z; [reflexivity|]. destruct (b =? 2)%Z; reflexivity.
Qed.

(** Read right after the average (as [_report_position] does), the count
    is the number of samples the average was taken over. *)
Lemma count_after_average timeout self now b v :
  fst (get_averaged_distance_with timeout self now b) = Some v ->
  let self' := snd (get_averaged_distance_with timeout self now b) in
  v = total_of (stored self' b) / IZR (get_measurement_count self' b).
Proof.
  intros Hv self'. subst self'. rewrite count_is_length.
  destruct (unknown_beacon self b) as [Hb|Hb].
  2:{ unfold get_averaged_distance_with in Hv. rewrite Hb in Hv. discriminate. }
  rewrite stored_after_average by exact Hb.
  rewrite averaged_distance_stored in Hv by exact Hb.
  destruct (pop_front_while_older _ (stored self b)) as [|s0 rest];
    [discriminate|].
  cbv beta iota zeta in Hv.
  destruct (Rltb timeout _); [discriminate|].
  injection Hv as <-. now rewrite <- INR_IZR_INZ.
Qed.

Open Scope string_scope.

(** C6, the failing input.  Window 2.0 s, one sample for beacon 1 at
    t = 0.0.  Whatever the time of the call, [get_measurement_count]
    answers 1; at t = 10.0 no sample is left in the window: the average
    taken at that instant is [None] and the count read after it is 0. *)
Theorem count_ignores_aging :
  let self := record (__init__ "tag" 2) (1%Z, 0, 1) in
  get_measurement_count self 1 = 1%Z /\
  window_mean (in_closed_window 10 2) (samples_for 1 [(1%Z, 0, 1)]) = None /\
  fst (get_averaged_distance self 10 1) = None /\
  get_measurement_count (snd (get_averaged_distance self 10 1)) 1 = 0%Z.
Proof.
  cbv zeta. repeat split.
  - unfold get_measurement_count. run. reflexivity.
  - unfold window_mean, in_closed_window. run. reflexivity.
  - unfold get_averaged_distance, get_averaged_distance_with. run. reflexivity.
  - unfold get_averaged_distance, get_averaged_distance_with,
      get_measurement_count. run. reflexivity.
Qed.

Close Scope string_scope.

(** ** The solver *)

Import PositionCalculator.

Lemma sqrt_of_square a b : 0 <= a -> a * a = b -> sqrt b = a.
Proof. intros Ha <-. now apply sqrt_square. Qed.

Lemma beacon_distance_euclid self :
  beacon_distance self = euclid (beacon1_pos self) (beacon2_pos self).
Proof.
  unfold beacon_distance, euclid.
  destruct (beacon1_pos self) as [x1 y1], (beacon2_pos self) as [x2 y2]; simpl.
  destruct (Reqb y1 y2) eqn:E; [|reflexivity].
  apply Reqb_true in E. subst y2.
  replace ((x2 - x1) * ((x2 - x1) * 1) + (y1 - y1) * ((y1 - y1) * 1))
    with (Rsqr (x2 - x1)) by (unfold Rsqr; ring).
  symmetry. apply sqrt_Rsqr_abs.
Qed.

Lemma euclid_zero p q : euclid p q = 0 <-> p = q.
Proof.
  unfold euclid. destruct p as [x1 y1], q as [x2 y2]; simpl. split.
  - intros H.
    set (a := x2 - x1) in *. set (b := y2 - y1) in *.
    assert (Hsum : 0 <= a * (a * 1) + b * (b * 1)) by nra.
    apply sqrt_eq_0 in H; [|exact Hsum].
    assert (Ha : a * a = 0) by nra. assert (Hb : b * b = 0) by nra.
    apply Rmult_integral in Ha. apply Rmult_integral in Hb.
    unfold a, b in *. f_equal; lra.
  - intros [= -> ->].
    replace ((x2 - x2) * ((x2 - x2) * 1) + (y2 - y2) * ((y2 - y2) * 1))
      with 0 by ring.
    apply sqrt_0.
Qed.

(** The position the code computes once all its checks have passed. *)
Lemma calculate_position_some self dist1 dist2 :
  let d := beacon_distance self in
  let A := A_of d dist1 dist2 in
  let H := sqrt (discriminant_of d dist1 dist2) in
  let x1 := fst (beacon1_pos self) in
  let y1 := snd (beacon1_pos self) in
  let x2 := fst (beacon2_pos self) in
  let y2 := snd (beacon2_pos self) in
  let y := if Reqb y1 y2 then H else H * (x2 - x1) / d + y1 in
  0 < dist1 -> 0 < dist2 -> d <> 0 -> 0 <= discriminant_of d dist1 dist2 ->
  calculate_position self dist1 dist2
  = Some (A * (x2 - x1) / d + x1, if Rltb y 0 then Rabs y else y).
Proof.
  intros d A H x1 y1 x2 y2 y H1 H2 Hd Hdisc.
  unfold calculate_position, try_block.
  rewrite (proj2 (Rleb_false dist1 0) H1), (proj2 (Rleb_false dist2 0) H2).
  subst x1 y1 x2 y2 y.
  destruct (beacon1_pos self) as [x1 y1] eqn:E1.
  destruct (beacon2_pos self) as [x2 y2] eqn:E2.
  cbn [fst snd orb].
  fold d. unfold py_div at 1.
  assert (Hd2 : Reqb (2 * d) 0 = false) by (apply Reqb_false; lra).
  rewrite Hd2. cbn [bind].
  fold (A_of d dist1 dist2). fold A.
  change (dist1 ^ 2 - A ^ 2) with (discriminant_of d dist1 dist2).
  rewrite (proj2 (Rltb_false _ _) Hdisc).
  fold H. unfold py_div.
  rewrite (proj2 (Reqb_false d 0) Hd).
  destruct (Reqb y1 y2); reflexivity.
Qed.

(** The four ways to [None]. *)
Lemma calculate_position_none self dist1 dist2 :
  let d := beacon_distance self in
  calculate_position self dist1 dist2 = None <->
  dist1 <= 0 \/ dist2 <= 0 \/ d = 0 \/ discriminant_of d dist1 dist2 < 0.
Proof.
  intros d. split.
  - intros Hnone.
    destruct (Rle_dec dist1 0) as [|H1]; [now left|].
    destruct (Rle_dec dist2 0) as [|H2]; [now right; left|].
    destruct (Req_dec_T d 0) as [|Hd]; [now right; right; left|].
    destruct (Rlt_dec (discriminant_of d dist1 dist2) 0) as [|Hdisc];
      [now right; right; right|].
    exfalso.
    rewrite calculate_position_some in Hnone; try discriminate;
      fold d; try lra; exact Hd.
  - unfold calculate_position, try_block.
    intros [H1 | [H2 | [Hd | Hdisc]]].
    + now rewrite (proj2 (Rleb_true dist1 0) H1).
    + rewrite (proj2 (Rleb_true dist2 0) H2). now rewrite orb_true_r.
    + destruct (Rleb dist1 0 || Rleb dist2 0); [reflexivity|].
      destruct (beacon1_pos self) as [x1 y1], (beacon2_pos self) as [x2 y2].
      fold d. unfold py_div at 1.
      assert (Hd2 : Reqb (2 * d) 0 = true) by (apply Reqb_true; lra).
      now rewrite Hd2.
    + destruct (Rleb dist1 0 || Rleb dist2 0); [reflexivity|].
      destruct (beacon1_pos self) as [x1 y1], (beacon2_pos self) as [x2 y2].
      fold d. unfold py_div at 1.
      destruct (Reqb (2 * d) 0); [reflexivity|]. cbn [bind].
      fold (A_of d dist1 dist2).
      change (dist1 ^ 2 - A_of d dist1 dist2 ^ 2)
        with (discriminant_of d dist1 dist2).
      now rewrite (proj2 (Rltb_true _ _) Hdisc).
Qed.

(** The discriminant is a product of the three triangle defects. *)
Lemma discriminant_product d dist1 dist2 :
  d <> 0 ->
  discriminant_of d dist1 dist2 =
  (dist1 + dist2 - d) * (dist2 + d - dist1) * (d + dist1 - dist2)
  * (d + dist1 + dist2) / (4 * d ^ 2).
Proof.
  intros Hd. unfold discriminant_of, A_of. field. exact Hd.
Qed.

(** The circles miss each other exactly when the discriminant is negative:
    they are too far apart, or one lies inside the other. *)
Lemma discriminant_negative d dist1 dist2 :
  0 < dist1 -> 0 < dist2 -> 0 < d ->
  discriminant_of d dist1 dist2 < 0 <->
  dist1 + dist2 < d \/ Rabs (dist1 - dist2) > d.
Proof.
  intros H1 H2 Hd.
  rewrite discriminant_product by lra.
  set (p := dist1 + dist2 - d). set (q := dist2 + d - dist1).
  set (r := d + dist1 - dist2). set (s := d + dist1 + dist2).
  assert (Hs : 0 < s) by (unfold s; lra).
  assert (Hden : 0 < 4 * d ^ 2) by (simpl; nra).
  assert (Habs : Rabs (dist1 - dist2) > d <-> q < 0 \/ r < 0).
  { unfold Rabs, q, r. destruct (Rcase_abs (dist1 - dist2)); split; lra. }
  assert (Hfar : dist1 + dist2 < d <-> p < 0) by (unfold p; split; lra).
  rewrite Habs, Hfar.
  assert (Hsign : p * q * r * s / (4 * d ^ 2) < 0 <-> p * q * r * s < 0).
  { split; intros H.
    - apply Rmult_lt_reg_r with (r := / (4 * d ^ 2)).
      + now apply Rinv_0_lt_compat.
      + rewrite Rmult_0_l. exact H.
    - unfold Rdiv. rewrite <- (Rmult_0_l (/ (4 * d ^ 2))).
      apply Rmult_lt_compat_r; [now apply Rinv_0_lt_compat | exact H]. }
  rewrite Hsign.
  assert (Hpq : 0 < p + q) by (unfold p, q; lra).
  assert (Hpr : 0 < p + r) by (unfold p, r; lra).
  assert (Hqr : 0 < q + r) by (unfold q, r; lra).
  clearbody p q r s. clear Habs Hfar Hsign.
  split.
  - intros Hneg.
    destruct (Rlt_dec p 0) as [|Hp]; [now left|].
    destruct (Rlt_dec q 0) as [|Hq]; [now right; left|].
    destruct (Rlt_dec r 0) as [|Hr]; [now right; right|].
    exfalso.
    assert (0 <= p * q) by (apply Rmult_le_pos; lra).
    assert (0 <= p * q * r) by (apply Rmult_le_pos; lra).
    assert (0 <= p * q * r * s) by (apply Rmult_le_pos; lra).
    lra.
  - intros Hcase.
    assert (Hneg3 : p * q * r < 0).
    { destruct Hcase as [Hp | [Hq | Hr]].
      - assert (0 < q) by lra. assert (0 < r) by lra.
        assert (0 < q * r) by (apply Rmult_lt_0_compat; lra).
        replace (p * q * r) with (p * (q * r)) by ring. nra.
      - assert (0 < p) by lra. assert (0 < r) by lra.
        assert (0 < p * r) by (apply Rmult_lt_0_compat; lra).
        replace (p * q * r) with (q * (p * r)) by ring. nra.
      - assert (0 < p) by lra. assert (0 < q) by lra.
        assert (0 < p * q) by (apply Rmult_lt_0_compat; lra).
        nra. }
    nra.
Qed.

(** C4.  [calculate_position] returns [None] exactly when [dist1 <= 0] or
    [dist2 <= 0], or the two anchors coincide ([d = 0]), or
    [dist1^2 - A^2 < 0]; on every other input it returns a position.  For
    positive distances and distinct anchors, [dist1^2 - A^2 < 0] holds
    exactly when [dist1 + dist2 < d] or [|dist1 - dist2| > d]. *)
Theorem solver_failure_conditions self dist1 dist2 :
  let d := euclid (beacon1_pos self) (beacon2_pos self) in
  let A := A_of d dist1 dist2 in
  (calculate_position self dist1 dist2 = None <->
     dist1 <= 0 \/ dist2 <= 0 \/ beacon1_pos self = beacon2_pos self \/
     dist1 ^ 2 - A ^ 2 < 0) /\
  (calculate_position self dist1 dist2 <> None ->
     exists x y, calculate_position self dist1 dist2 = Some (x, y)) /\
  (0 < dist1 /\ 0 < dist2 /\ 0 < d ->
     (dist1 ^ 2 - A ^ 2 < 0 <->
      dist1 + dist2 < d \/ Rabs (dist1 - dist2) > d)).
Proof.
  intros d A. split; [|split].
  - rewrite calculate_position_none, beacon_distance_euclid. fold d.
    unfold d at 1. rewrite euclid_zero. reflexivity.
  - destruct (calculate_position self dist1 dist2) as [[x y]|];
      [intros _; now exists x, y | contradiction].
  - intros (H1 & H2 & Hd). now apply discriminant_negative.
Qed.

Lemma euclid_2_0 : euclid (0, 0) (2, 0) = 2.
Proof. unfold euclid. cbn [fst snd]. apply sqrt_of_square; lra. Qed.

(** The infeasible distances of the specification's scenario: anchors at
    (0,0) and (2,0), both distances 0.5, so that [0.5 + 0.5 < 2]. *)
Lemma solver_failure_conditions_witness :
  calculate_position (mk (0, 0) (2, 0)) 0.5 0.5 = None.
Proof.
  destruct (solver_failure_conditions (mk (0, 0) (2, 0)) 0.5 0.5)
    as (Hnone & _ & Hcover).
  cbn [beacon1_pos beacon2_pos] in *. rewrite euclid_2_0 in *.
  apply Hnone. right; right; right. apply Hcover.
  - lra.
  - left. lra.
Defined.

(** C9.  Every position that [calculate_position] returns has a
    non-negative y-coordinate. *)
Theorem solver_side_convention self dist1 dist2 x y :
  calculate_position self dist1 dist2 = Some (x, y) -> 0 <= y.
Proof.
  intros Hsome.
  assert (Hnot : calculate_position self dist1 dist2 <> None)
    by (rewrite Hsome; discriminate).
  rewrite calculate_position_none in Hnot.
  rewrite calculate_position_some in Hsome by lra.
  injection Hsome as _ <-.
  match goal with
  | |- 0 <= (if Rltb ?y0 0 then _ else _) =>
      destruct (Rltb y0 0) eqn:E;
      [apply Rabs_pos | now apply Rltb_false in E]
  end.
Qed.

(** Anchors at (0,0) and (6,0), both distances 5: the tag is at (3,4). *)
Lemma position_3_4 :
  calculate_position (mk (0, 0) (6, 0)) 5 5 = Some (3, 4).
Proof.
  assert (Hd : beacon_distance (mk (0, 0) (6, 0)) = 6).
  { unfold beacon_distance. cbn [beacon1_pos beacon2_pos]. rcmp.
    rewrite Rabs_right; lra. }
  assert (HA : A_of 6 5 5 = 3) by (unfold A_of; lra).
  assert (Hdisc : discriminant_of 6 5 5 = 16)
    by (unfold discriminant_of; rewrite HA; lra).
  rewrite calculate_position_some; rewrite ?Hd, ?Hdisc, ?HA; try lra.
  cbn [beacon1_pos beacon2_pos fst snd]. rcmp.
  rewrite (sqrt_of_square 4 16) by lra. rcmp. f_equal. f_equal. lra.
Qed.

(** The ordinate of that position. *)
Lemma solver_side_convention_witness : 0 <= 4.
Proof.
  exact (solver_side_convention (mk (0, 0) (6, 0)) 5 5 3 4 position_3_4).
Defined.

(** ** Round trip *)

Lemma sum_squares_pos u v : 0 < v -> 0 < u ^ 2 + v ^ 2.
Proof.
  intros Hv. assert (0 <= u ^ 2) by apply pow2_ge_0.
  assert (0 < v ^ 2) by (simpl; nra). lra.
Qed.

(** On a horizontal baseline the solver recovers the abscissa of the tag
    and its height above the baseline; the baseline's own ordinate is not
    added back. *)
Lemma round_trip_horizontal x1 x2 y0 px py :
  x1 <> x2 -> y0 < py ->
  calculate_position (mk (x1, y0) (x2, y0))
    (euclid (x1, y0) (px, py)) (euclid (x2, y0) (px, py))
  = Some (px, py - y0).
Proof.
  intros Hx Hy.
  set (a := px - x1). set (b := x2 - x1). set (h := py - y0).
  assert (Hh : 0 < h) by (unfold h; lra).
  set (dist1 := euclid (x1, y0) (px, py)).
  set (dist2 := euclid (x2, y0) (px, py)).
  assert (H1sq : dist1 ^ 2 = a ^ 2 + h ^ 2).
  { unfold dist1, euclid; cbn [fst snd]. fold a h. apply pow2_sqrt.
    apply Rlt_le, sum_squares_pos, Hh. }
  assert (H2sq : dist2 ^ 2 = (a - b) ^ 2 + h ^ 2).
  { unfold dist2, euclid; cbn [fst snd].
    replace (px - x2) with (a - b) by (unfold a, b; lra). fold h.
    apply pow2_sqrt. apply Rlt_le, sum_squares_pos, Hh. }
  assert (H1 : 0 < dist1).
  { apply sqrt_lt_R0. cbn [fst snd]. apply sum_squares_pos, Hh. }
  assert (H2 : 0 < dist2).
  { apply sqrt_lt_R0. cbn [fst snd]. apply sum_squares_pos, Hh. }
  set (d := beacon_distance (mk (x1, y0) (x2, y0))).
  assert (Hd : d = Rabs b).
  { unfold d, beacon_distance; cbn [beacon1_pos beacon2_pos]. now rcmp. }
  assert (Hdpos : 0 < d).
  { rewrite Hd. apply Rabs_pos_lt. unfold b; lra. }
  assert (Hdsq : d ^ 2 = b ^ 2).
  { rewrite Hd. rewrite <- !Rsqr_pow2. symmetry. apply Rsqr_abs. }
  assert (HA : A_of d dist1 dist2 = a * b / d).
  { unfold A_of. rewrite Hdsq, H1sq, H2sq. field. lra. }
  assert (Hdisc : discriminant_of d dist1 dist2 = h * h).
  { unfold discriminant_of. rewrite HA, H1sq.
    replace ((a * b / d) ^ 2) with (a ^ 2 * (b ^ 2 / d ^ 2))
      by (field; lra).
    rewrite <- Hdsq. replace (d ^ 2 / d ^ 2) with 1 by (field; lra). ring. }
  rewrite calculate_position_some; fold d; try lra.
  2:{ rewrite Hdisc. nra. }
  rewrite HA, Hdisc. cbn [beacon1_pos beacon2_pos fst snd]. rcmp.
  rewrite sqrt_square by lra.
  rewrite (proj2 (Rltb_false h 0)) by lra.
  f_equal. f_equal.
  fold b. replace (a * b / d * b / d) with (a * (b ^ 2 / d ^ 2))
    by (field; lra).
  rewrite <- Hdsq. replace (d ^ 2 / d ^ 2) with 1 by (field; lra).
  unfold a. ring.
Qed.

(** C3, the failing inputs.  Anchors at (0,1) and (6,1), tag at (3,5),
    strictly above the baseline: both true distances are 5 and the solver
    answers (3,4), one metre off.  Anchors at (0,0) and (3,4), tag at
    (0,4): the true distances are 4 and 3 and the solver answers
    (1.92, 1.44). *)
Theorem round_trip_fails_off_axis :
  (euclid (0, 1) (3, 5) = 5 /\ euclid (6, 1) (3, 5) = 5 /\
   calculate_position (mk (0, 1) (6, 1))
     (euclid (0, 1) (3, 5)) (euclid (6, 1) (3, 5)) = Some (3, 4) /\
   Rabs (4 - 5) > 0.000001) /\
  (euclid (0, 0) (0, 4) = 4 /\ euclid (3, 4) (0, 4) = 3 /\
   calculate_position (mk (0, 0) (3, 4))
     (euclid (0, 0) (0, 4)) (euclid (3, 4) (0, 4)) = Some (1.92, 1.44) /\
   Rabs (1.92 - 0) > 0.000001 /\ Rabs (1.44 - 4) > 0.000001).
Proof.
  assert (E1 : euclid (0, 1) (3, 5) = 5)
    by (unfold euclid; cbn [fst snd]; apply sqrt_of_square; lra).
  assert (E2 : euclid (6, 1) (3, 5) = 5)
    by (unfold euclid; cbn [fst snd]; apply sqrt_of_square; lra).
  assert (E3 : euclid (0, 0) (0, 4) = 4)
    by (unfold euclid; cbn [fst snd]; apply sqrt_of_square; lra).
  assert (E4 : euclid (3, 4) (0, 4) = 3)
    by (unfold euclid; cbn [fst snd]; apply sqrt_of_square; lra).
  split.
  - split; [exact E1|]. split; [exact E2|]. split.
    + rewrite (round_trip_horizontal 0 6 1 3 5) by lra. f_equal. f_equal. lra.
    + rewrite Rabs_left; lra.
  - split; [exact E3|]. split; [exact E4|]. rewrite E3, E4. split.
    + assert (Hd : beacon_distance (mk (0, 0) (3, 4)) = 5).
      { unfold beacon_distance. cbn [beacon1_pos beacon2_pos]. rcmp.
        apply sqrt_of_square; lra. }
      assert (HA : A_of 5 4 3 = 3.2) by (unfold A_of; lra).
      assert (Hdisc : discriminant_of 5 4 3 = 5.76)
        by (unfold discriminant_of; rewrite HA; lra).
      rewrite calculate_position_some; rewrite ?Hd, ?Hdisc, ?HA; try lra.
      cbn [beacon1_pos beacon2_pos fst snd]. rcmp.
      rewrite (sqrt_of_square 2.4 5.76) by lra. rcmp. f_equal. f_equal; lra.
    + split; [rewrite Rabs_right | rewrite Rabs_left]; lra.
Qed.

(** ** End to end *)

Lemma position_1_1 :
  calculate_position (mk (0, 0) (2, 0)) (sqrt 2) (sqrt 2) = Some (1, 1).
Proof.
  assert (Hs : 0 < sqrt 2) by (apply sqrt_lt_R0; lra).
  assert (Hsq : sqrt 2 ^ 2 = 2) by (apply pow2_sqrt; lra).
  assert (Hd : beacon_distance (mk (0, 0) (2, 0)) = 2).
  { unfold beacon_distance. cbn [beacon1_pos beacon2_pos]. rcmp.
    rewrite Rabs_right; lra. }
  assert (HA : A_of 2 (sqrt 2) (sqrt 2) = 1)
    by (unfold A_of; rewrite Hsq; lra).
  assert (Hdisc : discriminant_of 2 (sqrt 2) (sqrt 2) = 1)
    by (unfold discriminant_of; rewrite HA, Hsq; lra).
  rewrite calculate_position_some; rewrite ?Hd, ?Hdisc, ?HA; try lra.
  cbn [beacon1_pos beacon2_pos fst snd]. rcmp.
  rewrite sqrt_1. rcmp. f_equal. f_equal. lra.
Qed.

Lemma sum_constant c l :
  Forall (fun x => x = c) l ->
  fold_right Rplus 0 l = INR (List.length l) * c.
Proof.
  induction 1 as [|x l -> _ IH].
  - simpl. lra.
  - cbn [fold_right List.length]. rewrite IH, S_INR. lra.
Qed.

Lemma mean_constant c l :
  l <> [] -> Forall (fun x => x = c) l -> mean l = Some c.
Proof.
  intros Hne Hall. destruct l as [|x l]; [contradiction|].
  unfold mean. rewrite (sum_constant c _ Hall). f_equal.
  assert (0 < INR (List.length (x :: l))) by (apply lt_0_INR; simpl; lia).
  field. lra.
Qed.

(** The average depends on the collector through the selected list and
    the window only. *)
Lemma average_congruence timeout s1 s2 now b :
  known_beacon b ->
  stored s1 b = stored s2 b ->
  averaging_window s1 = averaging_window s2 ->
  fst (get_averaged_distance_with timeout s1 now b)
  = fst (get_averaged_distance_with timeout s2 now b).
Proof.
  intros Hb Hstored Hw.
  rewrite !averaged_distance_stored by exact Hb.
  now rewrite Hstored, Hw.
Qed.

(** With a threshold above the window, the average of recorded samples
    is the mean over the closed window, fresh or not. *)
Lemma average_of_recorded timeout self b ms now :
  known_beacon b ->
  stored self b = [] ->
  averaging_window self < timeout ->
  nondecreasing (samples_for b ms) ->
  Forall (fun s => fst s <= now) (samples_for b ms) ->
  fst (get_averaged_distance_with timeout (record_all self ms) now b)
  = window_mean (in_closed_window now (averaging_window self))
      (samples_for b ms).
Proof.
  intros Hb Hempty Hw Hsorted Hnow.
  destruct (record_all_window self b ms Hb Hempty Hsorted) as (Hs & _ & _).
  destruct (staleness_on_sorted timeout (record_all self ms) now b
              (proj2 (nondecreasing_strong _) Hs)) as [_ Hmean].
  rewrite Hmean by (rewrite window_record_all; exact Hw).
  unfold _cleanup_old_measurements. rewrite window_record_all.
  now rewrite cleaned_is_closed_window.
Qed.

(** Samples that all carry the distance [c], one of them inside the
    window: the average is [c]. *)
Lemma average_of_constant self b ms now c :
  known_beacon b ->
  stored self b = [] ->
  averaging_window self < DISTANCE_TIMEOUT_SECONDS ->
  nondecreasing (samples_for b ms) ->
  Forall (fun s => fst s <= now) (samples_for b ms) ->
  Forall (fun s => snd s = c) (samples_for b ms) ->
  Exists (fun s => now - fst s <= averaging_window self) (samples_for b ms) ->
  fst (get_averaged_distance (record_all self ms) now b) = Some c.
Proof.
  intros Hb Hempty Hw Hsorted Hnow Hc Hin.
  unfold get_averaged_distance.
  rewrite average_of_recorded by assumption.
  unfold window_mean. apply mean_constant.
  - apply Exists_exists in Hin. destruct Hin as (s & Hs & Hage).
    rewrite Forall_forall in Hnow.
    assert (Hpass : In s (filter (in_closed_window now (averaging_window self))
                            (samples_for b ms))).
    { apply filter_In. split; [exact Hs|]. unfold in_closed_window.
      rewrite (proj2 (Rleb_true _ _) (Hnow s Hs)).
      rewrite (proj2 (Rleb_true (now - averaging_window self) (fst s)))
        by lra.
      reflexivity. }
    intros Hnil. apply map_eq_nil in Hnil. rewrite Hnil in Hpass.
    contradiction.
  - rewrite Forall_forall in *. intros d Hd.
    apply in_map_iff in Hd. destruct Hd as (s & <- & Hs).
    apply filter_In in Hs. now apply Hc.
Qed.

Open Scope string_scope.

(** C8.  Anchors at (0,0) and (2,0) (the module constants); every recorded
    distance is [sqrt 2], the samples of each beacon are in timestamp
    order and not later than the instant its average is taken, and one of
    them is still inside the 2 s window then.  The report is a position,
    computed from the two averages [sqrt 2], within 1 mm of (1, 1) in each
    coordinate. *)
Theorem end_to_end_scenario ms time1 time2 :
  Forall (fun m => snd (sample_of m) = sqrt 2) ms ->
  nondecreasing (samples_for 1 ms) ->
  nondecreasing (samples_for 2 ms) ->
  Forall (fun s => fst s <= time1) (samples_for 1 ms) ->
  Forall (fun s => fst s <= time2) (samples_for 2 ms) ->
  Exists (fun s => time1 - fst s <= AVERAGING_WINDOW_SECONDS)
    (samples_for 1 ms) ->
  Exists (fun s => time2 - fst s <= AVERAGING_WINDOW_SECONDS)
    (samples_for 2 ms) ->
  let system := PositioningSystem.__init__ "tag" "beacon1" "beacon2" in
  let collector :=
    record_all (PositioningSystem.tag_collector system) ms in
  exists x y count1 count2,
    fst (PositioningSystem._report_position
           (PositioningSystem.set_tag_collector system collector) time1 time2)
    = PositioningSystem.Position x y (sqrt 2) count1 (sqrt 2) count2 /\
    Rabs (x - 1) <= 0.001 /\ Rabs (y - 1) <= 0.001.
Proof.
  intros Hdist Hs1 Hs2 Hn1 Hn2 Hin1 Hin2 system collector.
  set (self := DistanceCollector.__init__ "tag" AVERAGING_WINDOW_SECONDS).
  assert (Hw : averaging_window self < DISTANCE_TIMEOUT_SECONDS)
    by (unfold self, DistanceCollector.__init__, AVERAGING_WINDOW_SECONDS,
          DISTANCE_TIMEOUT_SECONDS; cbn [averaging_window]; lra).
  assert (Hconst : forall b, Forall (fun s => snd s = sqrt 2) (samples_for b ms)).
  { intros b. rewrite Forall_forall in *. intros s Hs.
    unfold samples_for in Hs. apply in_map_iff in Hs.
    destruct Hs as (m & <- & Hm). apply filter_In in Hm. now apply Hdist. }
  assert (H1 : fst (get_averaged_distance collector time1 1) = Some (sqrt 2)).
  { apply (average_of_constant self 1 ms time1 (sqrt 2));
      try assumption; [now left | reflexivity | apply Hconst]. }
  assert (H2 : fst (get_averaged_distance
                      (snd (get_averaged_distance collector time1 1)) time2 2)
               = Some (sqrt 2)).
  { unfold get_averaged_distance at 1.
    rewrite (average_congruence _ _ collector).
    - apply (average_of_constant self 2 ms time2 (sqrt 2));
        try assumption; [now right | reflexivity | apply Hconst].
    - now right.
    - apply stored_other_after_average. discriminate.
    - apply (window_perform _ collector (Query_average time1 1)). }
  exists 1, 1.
  unfold PositioningSystem._report_position.
  cbn [PositioningSystem.tag_collector PositioningSystem.set_tag_collector].
  fold collector.
  destruct (get_averaged_distance collector time1 1) as [dist1 c1].
  cbn [fst snd] in H1, H2. subst dist1.
  destruct (get_averaged_distance c1 time2 2) as [dist2 c2].
  cbn [fst] in H2. subst dist2.
  change (PositioningSystem.calculator
            (PositioningSystem.set_tag_collector
               (PositioningSystem.set_tag_collector system collector) c2))
    with (mk (0, 0) (2, 0)).
  rewrite position_1_1.
  eexists _, _. cbn [fst]. split; [reflexivity|].
  split; rewrite Rabs_right; lra.
Qed.

(** One sample for beacon 1 and two for beacon 2, all [sqrt 2], reported
    at t = 11. *)
Lemma end_to_end_scenario_witness :
  exists x y count1 count2,
    fst (PositioningSystem._report_position
           (PositioningSystem.set_tag_collector
              (PositioningSystem.__init__ "tag" "beacon1" "beacon2")
              (record_all
                 (PositioningSystem.tag_collector
                    (PositioningSystem.__init__ "tag" "beacon1" "beacon2"))
                 [(1%Z, 10, sqrt 2); (2%Z, 10.1, sqrt 2);
                  (2%Z, 10.6, sqrt 2)])) 11 11)
    = PositioningSystem.Position x y (sqrt 2) count1 (sqrt 2) count2 /\
    Rabs (x - 1) <= 0.001 /\ Rabs (y - 1) <= 0.001.
Proof.
  apply (end_to_end_scenario
           [(1%Z, 10, sqrt 2); (2%Z, 10.1, sqrt 2); (2%Z, 10.6, sqrt 2)]
           11 11).
  - repeat constructor.
  - sorted_by_lra.
  - sorted_by_lra.
  - cbn -[Rle]. repeat (constructor; cbn -[Rle]; try lra).
  - cbn -[Rle]. repeat (constructor; cbn -[Rle]; try lra).
  - unfold AVERAGING_WINDOW_SECONDS. cbn -[Rle Rminus].
    apply Exists_cons_hd. cbn -[Rle Rminus]. lra.
  - unfold AVERAGING_WINDOW_SECONDS. cbn -[Rle Rminus].
    apply Exists_cons_hd. cbn -[Rle Rminus]. lra.
Defined.

Close Scope string_scope.

(** ** The tag reader *)

Open Scope string_scope.

(** An entry of the documented shape never raises: it records the sample
    it stands for, or nothing. *)
Lemma handle_result_shaped self timestamp entry :
  entry_shaped entry ->
  handle_result self timestamp entry =
  Return (match usable_entry entry with
          | Some (b, d) =>
              (_add_distance_measurement self timestamp b d,
               [DEBUG_distance b d])
          | None => (self, [])
          end).
Proof.
  destruct entry as [| | | | |fields]; simpl; try contradiction.
  intros Hshape. unfold dict_has.
  destruct (is_str (dict_get fields "Status") "Ok"); [|reflexivity].
  destruct (dict_get fields "D_cm") as [[| | r | | |]|];
    try contradiction; simpl; [|reflexivity].
  destruct (dict_get fields "Addr") as [[| | | addr | |]|]; simpl;
    try reflexivity.
  destruct (String.eqb addr "0x0001"); [reflexivity|].
  destruct (String.eqb addr "0x0002"); reflexivity.
Qed.

Lemma for_results_shaped timestamp entries :
  Forall entry_shaped entries ->
  forall self,
    for_results self timestamp entries =
    (record_all self
       (map (fun s => (fst s, timestamp, snd s)) (usable_entries entries)),
     map (fun s => DEBUG_distance (fst s) (snd s)) (usable_entries entries),
     None).
Proof.
  induction 1 as [|entry entries Hshape _ IH]; intros self; [reflexivity|].
  cbn [for_results]. rewrite (handle_result_shaped _ _ _ Hshape).
  unfold usable_entries. cbn [flat_map].
  destruct (usable_entry entry) as [[b d]|]; rewrite IH; reflexivity.
Qed.





Close Scope string_scope.

(** ** Construction *)

Open Scope string_scope.

Lemma pop_front_all c l :
  Forall (fun s => fst s < c) l -> pop_front_while_older c l = [].
Proof.
  induction 1 as [|s l Hs _ IH]; simpl; [reflexivity|].
  now rewrite (proj2 (Rltb_true _ _) Hs).
Qed.

(** Whatever the order of the timestamps, a stored sample is one that was
    there before or one that was recorded. *)
Lemma stored_incl_recorded ms self b :
  known_beacon b ->
  incl (stored (record_all self ms) b) (stored self b ++ samples_for b ms).
Proof.
  intros Hb. induction ms as [|m ms IH] using rev_ind.
  - simpl. rewrite app_nil_r. apply incl_refl.
  - unfold record_all in *. rewrite fold_left_app. simpl.
    rewrite stored_record by exact Hb. rewrite samples_for_snoc.
    destruct (beacon_of m =? b)%Z.
    + intros x Hx. apply pop_front_incl in Hx.
      apply in_app_or in Hx. rewrite app_assoc. apply in_or_app.
      destruct Hx as [Hx|Hx]; [left; now apply IH | now right].
    + now rewrite app_nil_r.
Qed.

(** C5 (amended).  No configuration is rejected at construction: the three
    constructor calls return an object for every argument, the window and
    the anchor positions stored as given.  A degenerate configuration
    shows at use only: with coincident anchors [calculate_position]
    returns [None] for all distances, and with a zero (or negative)
    averaging window every average taken after the samples were recorded
    is [None]. *)
Theorem construction_never_rejects :
  (forall port averaging_window,
     new_DistanceCollector port averaging_window
     = Return (DistanceCollector.mk port averaging_window [] [] false)) /\
  (forall beacon1_pos beacon2_pos,
     new_PositionCalculator beacon1_pos beacon2_pos
     = Return (PositionCalculator.mk beacon1_pos beacon2_pos)) /\
  (forall tag_port beacon1_port beacon2_port,
     exists system,
       new_PositioningSystem tag_port beacon1_port beacon2_port
       = Return system) /\
  (forall position dist1 dist2,
     calculate_position (PositionCalculator.mk position position) dist1 dist2
     = None) /\
  (forall port averaging_window ms now b,
     averaging_window <= 0 ->
     Forall (fun m => fst (sample_of m) < now) ms ->
     fst (get_averaged_distance
            (record_all (DistanceCollector.__init__ port averaging_window) ms)
            now b)
     = None).
Proof.
  split; [reflexivity|]. split; [reflexivity|].
  split; [intros; eexists; reflexivity|]. split.
  - intros position dist1 dist2. apply calculate_position_none.
    right; right; left. rewrite beacon_distance_euclid.
    now apply euclid_zero.
  - intros port w ms now b Hw Hpast.
    set (self := DistanceCollector.__init__ port w).
    destruct (unknown_beacon (record_all self ms) b) as [Hb|Hb].
    + unfold get_averaged_distance.
      rewrite averaged_distance_stored by exact Hb.
      rewrite window_record_all. change (averaging_window self) with w.
      rewrite pop_front_all; [reflexivity|].
      rewrite Forall_forall. intros s Hs.
      apply (stored_incl_recorded ms self b Hb) in Hs.
      assert (Hempty : stored self b = [])
        by (destruct Hb as [-> | ->]; reflexivity).
      rewrite Hempty in Hs. cbn [app] in Hs.
      unfold samples_for in Hs. apply in_map_iff in Hs.
      destruct Hs as (m & <- & Hm). apply filter_In in Hm.
      rewrite Forall_forall in Hpast. specialize (Hpast m (proj1 Hm)). lra.
    + unfold get_averaged_distance, get_averaged_distance_with.
      now rewrite Hb.
Qed.

(** C5 as stated has an invalid configuration fail at construction.  A
    collector with a zero averaging window and a calculator with both
    anchors at the origin are constructed without any error. *)
Lemma construction_counterexample :
  ~ (exists e, new_DistanceCollector "tag" 0 = Raise e) /\
  ~ (exists e, new_PositionCalculator (0, 0) (0, 0) = Raise e).
Proof.
  split; intros [e He]; discriminate He.
Qed.

Close Scope string_scope.

(** * Further properties of the code *)

(** ** The collector along arbitrary executions *)

Lemma recorded_snoc b ops op :
  recorded b (ops ++ [op]) = recorded b ops ++ recorded b [op].
Proof. unfold recorded. now rewrite flat_map_app. Qed.

Lemma stored_unknown self b :
  distance_list_of self b = None -> stored self b = [].
Proof. unfold stored. now intros ->. Qed.

Lemma unknown_everywhere (s1 s2 : DistanceCollector.t) b :
  distance_list_of s1 b = None -> distance_list_of s2 b = None.
Proof.
  unfold distance_list_of.
  destruct (b =? 1)%Z; [discriminate|]. destruct (b =? 2)%Z; [discriminate|].
  reflexivity.
Qed.

(** What one call does to the list of a known beacon. *)
Lemma stored_perform timeout self op b :
  known_beacon b ->
  stored (perform timeout self op) b =
  match op with
  | Record_sample timestamp b' distance =>
      if (b' =? b)%Z
      then pop_front_while_older (timestamp - averaging_window self)
             (stored self b ++ [(timestamp, distance)])
      else stored self b
  | Query_average current_time b' =>
      if (b' =? b)%Z
      then pop_front_while_older (current_time - averaging_window self)
             (stored self b)
      else stored self b
  end.
Proof.
  intros Hb. destruct op as [timestamp b' distance | current_time b'];
    simpl perform.
  - rewrite <- record_is_add. now rewrite stored_record.
  - destruct (Z.eqb_spec b' b) as [->|Hneq].
    + now apply stored_after_average.
    + apply stored_other_after_average. congruence.
Qed.

(** X1.  Whatever the timestamps and whatever the calls, the list kept for
    a beacon is a suffix of the samples recorded for that beacon: samples
    leave oldest first, are never reordered and never move to the other
    beacon; so the count never exceeds the number of samples recorded. *)
Theorem stored_is_suffix_of_recorded timeout port window ops b :
  let self := perform_all timeout (DistanceCollector.__init__ port window) ops in
  (exists dropped, recorded b ops = dropped ++ stored self b) /\
  (get_measurement_count self b <= Z.of_nat (List.length (recorded b ops)))%Z.
Proof.
  intros self.
  assert (Hsuffix : exists dropped, recorded b ops = dropped ++ stored self b).
  { subst self. destruct (unknown_beacon (DistanceCollector.__init__ port window) b) as [Hb|Hb].
    2:{ exists (recorded b ops). rewrite stored_unknown; [now rewrite app_nil_r|].
        now apply (unknown_everywhere (DistanceCollector.__init__ port window)). }
    induction ops as [|op ops IH] using rev_ind.
    - exists []. destruct Hb as [-> | ->]; reflexivity.
    - destruct IH as [dropped IH]. unfold perform_all in *.
      rewrite fold_left_app, recorded_snoc. cbn [fold_left].
      rewrite stored_perform by exact Hb. rewrite IH.
      set (self := fold_left (perform timeout) ops (DistanceCollector.__init__ port window)).
      destruct op as [timestamp b' distance | current_time b'];
        cbn [recorded flat_map]; destruct (b' =? b)%Z;
        rewrite ?app_nil_r.
      + destruct (pop_front_suffix (timestamp - averaging_window self)
                    (stored self b ++ [(timestamp, distance)]))
          as (popped & Heq & _).
        exists (dropped ++ popped).
        rewrite <- !app_assoc. f_equal. exact Heq.
      + now exists dropped.
      + destruct (pop_front_suffix (current_time - averaging_window self)
                    (stored self b)) as (popped & Heq & _).
        exists (dropped ++ popped). rewrite <- app_assoc. f_equal. exact Heq.
      + now exists dropped. }
  split; [exact Hsuffix|].
  destruct Hsuffix as [dropped ->]. rewrite count_is_length, length_app. lia.
Qed.

Lemma nondecreasing_prefix ops op :
  clock_nondecreasing (ops ++ [op]) ->
  clock_nondecreasing ops /\
  Forall (fun t => t <= time_of op) (map time_of ops).
Proof.
  unfold clock_nondecreasing. rewrite map_app. cbn [map]. intros H.
  apply Sorted_StronglySorted in H; [|intros x y z; apply Rle_trans].
  apply StronglySorted_snoc in H. destruct H as [Hs Hle].
  split; [now apply StronglySorted_Sorted | exact Hle].
Qed.

(** X2.  While the clock never steps back: right after a call made at time
    [T] for a beacon, every sample kept for that beacon has its timestamp
    in [[T - averaging_window, T]], and the list is in timestamp order;
    after a record with a non-negative window, the sample just recorded is
    the last of the list. *)
Theorem stored_within_window timeout port window ops op :
  clock_nondecreasing (ops ++ [op]) ->
  let self := perform_all timeout (DistanceCollector.__init__ port window) (ops ++ [op]) in
  let b := beacon_of_op op in
  Forall (fun s => time_of op - window <= fst s <= time_of op) (stored self b) /\
  nondecreasing (stored self b) /\
  (forall timestamp distance,
     op = Record_sample timestamp b distance -> known_beacon b -> 0 <= window ->
     latest (stored self b) = Some (timestamp, distance)).
Proof.
  intros Hclock self b.
  assert (Eb : beacon_of_op op = b) by reflexivity. clearbody b.
  destruct (unknown_beacon (DistanceCollector.__init__ port window) b) as [Hb|Hb].
  2:{ rewrite (stored_unknown self b)
        by now apply (unknown_everywhere (DistanceCollector.__init__ port window)).
      repeat split; [constructor | constructor |].
      intros ? ? _ [Hk|Hk]; unfold distance_list_of in Hb;
        rewrite Hk in Hb; discriminate. }
  destruct (nondecreasing_prefix ops op Hclock) as [Hpre Hle].
  destruct (execution_invariant timeout port window ops b Hpre Hb)
    as [Hsorted Htimes].
  destruct (execution_invariant timeout port window (ops ++ [op]) b Hclock Hb)
    as [Hsorted' _].
  fold self in Hsorted'.
  set (before := perform_all timeout (DistanceCollector.__init__ port window) ops) in *.
  assert (Hself : self = perform timeout before op).
  { unfold self, before, perform_all. now rewrite fold_left_app. }
  assert (Hw : averaging_window before = window)
    by (unfold before; apply window_perform_all).
  assert (Hupper : Forall (fun s => fst s <= time_of op) (stored before b)).
  { rewrite Forall_forall in *. intros s Hs. apply Hle, Htimes, Hs. }
  split; [|split].
  - rewrite Hself, stored_perform by exact Hb. rewrite Hw.
    assert (Hboth : forall l,
               StronglySorted by_time l ->
               Forall (fun s => fst s <= time_of op) l ->
               Forall (fun s => time_of op - window <= fst s <= time_of op)
                 (pop_front_while_older (time_of op - window) l)).
    { intros l Hl Hup. rewrite (pop_front_sorted _ _ Hl).
      rewrite Forall_forall in *. intros s Hs. apply filter_In in Hs.
      destruct Hs as [Hs Hk]. apply kept_true in Hk. split; [exact Hk|].
      now apply Hup. }
    destruct op as [timestamp b' distance | current_time b'];
      cbn [beacon_of_op time_of] in *; subst b'; rewrite Z.eqb_refl.
    + apply Hboth.
      * apply strong_snoc. split; [exact Hsorted | exact Hupper].
      * apply Forall_app. split; [exact Hupper|].
        constructor; [cbn [fst]; lra | constructor].
    + now apply Hboth.
  - now apply nondecreasing_strong.
  - intros timestamp distance Hop _ Hwin. rewrite Hself, Hop. cbn [perform].
    rewrite <- record_is_add.
    apply (latest_after_record before (b, timestamp, distance)); [exact Hb|].
    now rewrite Hw.
Qed.

Open Scope string_scope.

(** Three records and a query, clock readings 0, 1, 1, 2.5 with a 2 s
    window: after the last record (beacon 1 at 2.5) the sample of t = 0 is
    gone and the kept ones lie in [0.5, 2.5]. *)
Lemma stored_within_window_witness :
  Forall (fun s => 2.5 - 2 <= fst s <= 2.5)
    (stored
       (perform_all 5 (DistanceCollector.__init__ "tag" 2)
          ([Record_sample 0 1 1; Record_sample 1 1 1.2; Query_average 1 2]
           ++ [Record_sample 2.5 1 1.4])) 1).
Proof.
  apply (stored_within_window 5 "tag" 2
           [Record_sample 0 1 1; Record_sample 1 1 1.2; Query_average 1 2]
           (Record_sample 2.5 1 1.4)).
  unfold clock_nondecreasing. cbn -[Rle]. repeat (constructor; try lra).
Defined.

Close Scope string_scope.

(** ** Averages *)

Lemma sum_between lo hi (l : list R) :
  Forall (fun x => lo <= x <= hi) l ->
  INR (List.length l) * lo <= fold_right Rplus 0 l <= INR (List.length l) * hi.
Proof.
  induction 1 as [|x l Hx _ IH].
  - simpl. lra.
  - cbn [fold_right List.length]. rewrite S_INR. lra.
Qed.

(** X3.  An average is never outside the range of the distances it was
    taken from: if all distances kept for the beacon lie in [[lo, hi]], so
    does every number [get_averaged_distance] returns. *)
Theorem average_between_extremes timeout self now b lo hi v :
  Forall (fun s => lo <= snd s <= hi) (stored self b) ->
  fst (get_averaged_distance_with timeout self now b) = Some v ->
  lo <= v <= hi.
Proof.
  intros Hrange Hv.
  destruct (unknown_beacon self b) as [Hb|Hb].
  2:{ unfold get_averaged_distance_with in Hv. rewrite Hb in Hv. discriminate. }
  rewrite averaged_distance_stored in Hv by exact Hb.
  pose proof (pop_front_incl (now - averaging_window self) (stored self b))
    as Hincl.
  destruct (pop_front_while_older (now - averaging_window self) (stored self b))
    as [|s0 rest]; [discriminate|].
  cbv beta iota zeta in Hv.
  destruct (Rltb timeout _); [discriminate|]. injection Hv as <-.
  rewrite total_of_sum.
  assert (Hall : Forall (fun x => lo <= x <= hi) (map snd (s0 :: rest))).
  { rewrite Forall_forall in *. intros x Hx. apply in_map_iff in Hx.
    destruct Hx as (s & <- & Hs). apply Hrange, Hincl, Hs. }
  apply sum_between in Hall. rewrite length_map in Hall.
  assert (Hn : 0 < INR (List.length (s0 :: rest)))
    by (apply lt_0_INR; simpl; lia).
  set (n := INR (List.length (s0 :: rest))) in *.
  set (S := fold_right Rplus 0 (map snd (s0 :: rest))) in *.
  change (lo <= S / n <= hi). change (n * lo <= S <= n * hi) in Hall.
  assert (HS : S = S / n * n) by (field; lra).
  assert (Hlo : lo * n <= S / n * n) by (rewrite <- HS; lra).
  assert (Hhi : S / n * n <= hi * n) by (rewrite <- HS; lra).
  split; apply Rmult_le_reg_r with (r := n); assumption.
Qed.

Open Scope string_scope.

(** Distances 1.0 and 1.4 in the window: the average 1.2 lies between. *)
Lemma average_between_extremes_witness : 1 <= 1.2 <= 1.4.
Proof.
  apply (average_between_extremes 5
           (DistanceCollector.mk "tag" 2 [(0, 1); (1, 1.4)] [] true)
           1 1 1 1.4 1.2).
  - unfold stored. cbn -[Rle]. repeat (constructor; cbn -[Rle]; try lra).
  - unfold get_averaged_distance_with, total_of. run. finish.
Defined.

Close Scope string_scope.

Lemma pop_front_twice c c' l :
  c <= c' ->
  pop_front_while_older c' (pop_front_while_older c l)
  = pop_front_while_older c' l.
Proof.
  intros Hle. induction l as [|s l IH]; [reflexivity|].
  cbn [pop_front_while_older].
  destruct (Rltb (fst s) c) eqn:E.
  - apply Rltb_true in E. rewrite (proj2 (Rltb_true (fst s) c')) by lra.
    exact IH.
  - reflexivity.
Qed.

(** X4.  An earlier query never changes what a later one returns: a query
    of another beacon, or a query of the same beacon at an earlier or
    equal time, leaves the result of the next query, and the list it
    keeps, as they would have been without it. *)
Theorem earlier_query_is_harmless timeout self t b' t' b :
  b' <> b \/ t <= t' ->
  let after := snd (get_averaged_distance_with timeout self t b') in
  fst (get_averaged_distance_with timeout after t' b)
  = fst (get_averaged_distance_with timeout self t' b) /\
  stored (snd (get_averaged_distance_with timeout after t' b)) b
  = stored (snd (get_averaged_distance_with timeout self t' b)) b.
Proof.
  intros Hcase after.
  assert (Hw : averaging_window after = averaging_window self)
    by apply (window_perform timeout self (Query_average t b')).
  destruct (unknown_beacon self b) as [Hb|Hb].
  2:{ pose proof (unknown_everywhere self after b Hb) as Hb'.
      unfold get_averaged_distance_with. rewrite Hb, Hb'. cbn [fst snd].
      split; [reflexivity|]. now rewrite !stored_unknown. }
  rewrite !stored_after_average, !averaged_distance_stored by exact Hb.
  rewrite Hw.
  assert (Hlist : pop_front_while_older (t' - averaging_window self)
                    (stored after b)
                  = pop_front_while_older (t' - averaging_window self)
                      (stored self b)).
  { unfold after.
    change (snd (get_averaged_distance_with timeout self t b'))
      with (perform timeout self (Query_average t b')).
    rewrite stored_perform by exact Hb.
    destruct (Z.eqb_spec b' b) as [->|Hneq]; [|reflexivity].
    destruct Hcase as [Hcase|Hcase]; [contradiction|].
    apply pop_front_twice. lra. }
  now rewrite Hlist.
Qed.

Open Scope string_scope.

(** A query at t = 1 before the query at t = 2.5. *)
Lemma earlier_query_is_harmless_witness :
  fst (get_averaged_distance_with 5
         (snd (get_averaged_distance_with 5
                 (DistanceCollector.mk "tag" 2 [(0, 1); (1, 1.4)] [] true)
                 1 1))
         2.5 1)
  = fst (get_averaged_distance_with 5
           (DistanceCollector.mk "tag" 2 [(0, 1); (1, 1.4)] [] true) 2.5 1).
Proof.
  apply (earlier_query_is_harmless 5
           (DistanceCollector.mk "tag" 2 [(0, 1); (1, 1.4)] [] true)
           1 1 2.5 1).
  right. lra.
Defined.

Close Scope string_scope.

(** X5.  A sample that is inside the window and not older than the
    staleness threshold guarantees an average: whatever the collector held
    before, after recording [(timestamp, distance)] with a non-negative
    window, a query at [now] with [now - timestamp] at most the window and
    at most the threshold returns a number. *)
Theorem fresh_sample_is_averaged self timestamp b distance now :
  known_beacon b ->
  0 <= averaging_window self ->
  now - timestamp <= averaging_window self ->
  now - timestamp <= DISTANCE_TIMEOUT_SECONDS ->
  exists v,
    fst (get_averaged_distance
           (_add_distance_measurement self timestamp b distance) now b)
    = Some v.
Proof.
  intros Hb Hw Hin Hfresh.
  rewrite <- record_is_add.
  pose proof (latest_after_record self (b, timestamp, distance) Hb Hw) as Hlast.
  cbn [beacon_of sample_of fst snd] in Hlast.
  apply latest_last in Hlast. destruct Hlast as [Hne Hlast].
  unfold get_averaged_distance. rewrite averaged_distance_stored by exact Hb.
  rewrite window_record.
  set (l := stored (record self (b, timestamp, distance)) b) in *.
  destruct (pop_front_suffix (now - averaging_window self) l)
    as (popped & Heq & Hold & _).
  destruct (pop_front_while_older (now - averaging_window self) l)
    as [|s0 rest] eqn:E.
  - exfalso. rewrite app_nil_r in Heq. subst popped.
    destruct (exists_last Hne) as (l' & a & Hl').
    rewrite Hl', last_last in Hlast. subst a. rewrite Hl' in Hold.
    apply Forall_app in Hold. destruct Hold as [_ Hold].
    apply Forall_inv in Hold. cbn [sample_of fst snd] in Hold. lra.
  - cbv beta iota zeta. unfold latest_time_of. rewrite <- E.
    rewrite pop_front_last by (rewrite E; discriminate).
    rewrite Hlast. cbn [sample_of fst snd].
    rewrite (proj2 (Rltb_false _ _) Hfresh). eexists. reflexivity.
Qed.

Open Scope string_scope.

(** Stale samples in the list, a new one at t = 100, query at 101. *)
Lemma fresh_sample_is_averaged_witness :
  exists v,
    fst (get_averaged_distance
           (_add_distance_measurement
              (DistanceCollector.mk "tag" 2 [(50, 1); (3, 7)] [] true)
              100 1 1.5) 101 1)
    = Some v.
Proof.
  apply (fresh_sample_is_averaged
           (DistanceCollector.mk "tag" 2 [(50, 1); (3, 7)] [] true)
           100 1 1.5 101).
  - now left.
  - cbn -[Rle]. lra.
  - cbn -[Rle Rminus]. lra.
  - unfold DISTANCE_TIMEOUT_SECONDS. lra.
Defined.

Close Scope string_scope.

(** ** The solver *)

(** X6.  With both anchors on the x-axis (the shipped configuration), every
    position the solver returns is consistent with its two inputs: it lies
    at distance [dist1] from anchor 1 and [dist2] from anchor 2. *)
Theorem solution_matches_distances x1 x2 dist1 dist2 x y :
  calculate_position (mk (x1, 0) (x2, 0)) dist1 dist2 = Some (x, y) ->
  euclid (x1, 0) (x, y) = dist1 /\ euclid (x2, 0) (x, y) = dist2.
Proof.
  intros Hsome.
  assert (Hnot : calculate_position (mk (x1, 0) (x2, 0)) dist1 dist2 <> None)
    by (rewrite Hsome; discriminate).
  rewrite calculate_position_none in Hnot.
  rewrite calculate_position_some in Hsome by lra.
  set (d := beacon_distance (mk (x1, 0) (x2, 0))) in *.
  set (b := x2 - x1).
  assert (Hd : d = Rabs b).
  { unfold d, beacon_distance; cbn [beacon1_pos beacon2_pos]. now rcmp. }
  assert (Hd0 : d <> 0) by lra.
  assert (Hdsq : d * d = b * b).
  { rewrite Hd. symmetry. apply (Rsqr_abs b). }
  assert (H1 : 0 < dist1) by lra. assert (H2 : 0 < dist2) by lra.
  assert (Hdisc : 0 <= discriminant_of d dist1 dist2) by lra.
  cbn [beacon1_pos beacon2_pos fst snd] in Hsome. fold b in Hsome.
  rewrite (proj2 (Reqb_true 0 0) eq_refl) in Hsome.
  rewrite (proj2 (Rltb_false (sqrt (discriminant_of d dist1 dist2)) 0))
    in Hsome by apply sqrt_pos.
  injection Hsome as <- <-.
  set (A := A_of d dist1 dist2).
  set (s := sqrt (discriminant_of d dist1 dist2)).
  assert (Hs : s * s = dist1 ^ 2 - A ^ 2) by (apply sqrt_sqrt; exact Hdisc).
  assert (HA : 2 * A * d = d ^ 2 - dist2 ^ 2 + dist1 ^ 2)
    by (unfold A, A_of; field; exact Hd0).
  set (q := b / d).
  assert (Hq : q * q = 1).
  { unfold q. replace (b / d * (b / d)) with (b * b / (d * d)) by (field; lra).
    rewrite <- Hdsq. field. lra. }
  assert (Hb : b = q * d) by (unfold q; field; lra).
  split; unfold euclid; cbn [fst snd]; apply sqrt_of_square; try lra.
  - replace (A * b / d + x1 - x1) with (A * q) by (unfold q; field; lra).
    replace ((A * q) ^ 2 + (s - 0) ^ 2) with (A ^ 2 * (q * q) + s * s) by ring.
    rewrite Hq, Hs. ring.
  - replace (A * b / d + x1 - x2) with (q * (A - d)).
    2:{ replace (A * b / d) with (A * q) by (unfold q; field; lra).
        assert (Hx : x1 - x2 = - (q * d)) by (rewrite <- Hb; unfold b; ring).
        replace (A * q + x1 - x2) with (A * q + (x1 - x2)) by ring.
        rewrite Hx. ring. }
    replace ((q * (A - d)) ^ 2 + (s - 0) ^ 2)
      with (q * q * (A ^ 2 - 2 * A * d + d ^ 2) + s * s) by ring.
    rewrite Hq, Hs, HA. ring.
Qed.

(** The position (3,4) for anchors (0,0), (6,0) and distances 5, 5. *)
Lemma solution_matches_distances_witness :
  euclid (0, 0) (3, 4) = 5 /\ euclid (6, 0) (3, 4) = 5.
Proof.
  exact (solution_matches_distances 0 6 5 5 3 4 position_3_4).
Defined.

(** X7.  Two anchors with the same x-coordinate (a vertical baseline) make
    the solver blind to its inputs: whatever the distances, every position
    it returns is [(x1, |y1|)], anchor 1 itself or its mirror image. *)
Theorem vertical_baseline_returns_anchor x1 y1 y2 dist1 dist2 x y :
  calculate_position (mk (x1, y1) (x1, y2)) dist1 dist2 = Some (x, y) ->
  x = x1 /\ y = Rabs y1.
Proof.
  intros Hsome.
  assert (Hnot : calculate_position (mk (x1, y1) (x1, y2)) dist1 dist2 <> None)
    by (rewrite Hsome; discriminate).
  rewrite calculate_position_none in Hnot.
  rewrite calculate_position_some in Hsome by lra.
  set (d := beacon_distance (mk (x1, y1) (x1, y2))) in *.
  assert (Hd0 : d <> 0) by lra.
  assert (Hy : y1 <> y2).
  { intros ->. apply Hd0. unfold d, beacon_distance.
    cbn [beacon1_pos beacon2_pos]. rcmp.
    replace (x1 - x1) with 0 by ring. apply Rabs_R0. }
  cbn [beacon1_pos beacon2_pos fst snd] in Hsome.
  rewrite (proj2 (Reqb_false y1 y2) Hy) in Hsome.
  replace (A_of d dist1 dist2 * (x1 - x1) / d + x1) with x1 in Hsome
    by (field; exact Hd0).
  replace (sqrt (discriminant_of d dist1 dist2) * (x1 - x1) / d + y1)
    with y1 in Hsome by (field; exact Hd0).
  injection Hsome as <- <-. split; [reflexivity|].
  destruct (Rltb y1 0) eqn:E; [reflexivity|].
  apply Rltb_false in E. symmetry. apply Rabs_right. lra.
Qed.

(** Anchors at (1,-2) and (1,3), distances 3 and 4. *)
Lemma vertical_baseline_returns_anchor_witness :
  calculate_position (mk (1, -2) (1, 3)) 3 4 = Some (1, 2).
Proof.
  assert (Hd : beacon_distance (mk (1, -2) (1, 3)) = 5).
  { unfold beacon_distance. cbn [beacon1_pos beacon2_pos]. rcmp.
    apply sqrt_of_square; lra. }
  assert (HA : A_of 5 3 4 = 1.8) by (unfold A_of; lra).
  assert (Hdisc : discriminant_of 5 3 4 = 5.76)
    by (unfold discriminant_of; rewrite HA; lra).
  assert (Hsome : exists x y,
             calculate_position (mk (1, -2) (1, 3)) 3 4 = Some (x, y)).
  { rewrite calculate_position_some; rewrite ?Hd, ?Hdisc; try lra.
    eexists _, _. reflexivity. }
  destruct Hsome as (x & y & Hsome). rewrite Hsome.
  destruct (vertical_baseline_returns_anchor 1 (-2) 3 3 4 x y Hsome)
    as [-> ->].
  f_equal. f_equal. rewrite Rabs_left; lra.
Defined.

(** ** The position report *)

Lemma average_of_empty timeout self now b :
  stored self b = [] ->
  fst (get_averaged_distance_with timeout self now b) = None.
Proof.
  intros Hempty. destruct (unknown_beacon self b) as [Hb|Hb].
  - rewrite averaged_distance_stored by exact Hb. now rewrite Hempty.
  - unfold get_averaged_distance_with. now rewrite Hb.
Qed.

Lemma average_some_nonempty timeout self now b v :
  fst (get_averaged_distance_with timeout self now b) = Some v ->
  known_beacon b /\
  stored (snd (get_averaged_distance_with timeout self now b)) b <> [].
Proof.
  intros Hv. destruct (unknown_beacon self b) as [Hb|Hb].
  2:{ unfold get_averaged_distance_with in Hv. rewrite Hb in Hv. discriminate. }
  split; [exact Hb|]. rewrite stored_after_average by exact Hb.
  rewrite averaged_distance_stored in Hv by exact Hb.
  destruct (pop_front_while_older _ (stored self b)); [discriminate|].
  discriminate.
Qed.

(** The second average of a report, taken on the collector the first one
    left, is the average the collector would have given before it. *)
Lemma second_average self time1 time2 :
  fst (get_averaged_distance
         (snd (get_averaged_distance self time1 1)) time2 2)
  = fst (get_averaged_distance self time2 2).
Proof.
  unfold get_averaged_distance. apply average_congruence.
  - now right.
  - apply stored_other_after_average. discriminate.
  - apply (window_perform _ self (Query_average time1 1)).
Qed.

Open Scope string_scope.

(** X8.  A report is never a position while a beacon has no sample: if the
    list of beacon 2 is empty the report is "waiting for measurements"
    with no distance for beacon 2 (and the average of beacon 1 as it is),
    and likewise for beacon 1. *)
Theorem report_waits_for_missing_beacon self time1 time2 :
  let c := PositioningSystem.tag_collector self in
  stored c 1 = [] \/ stored c 2 = [] ->
  exists dist1 dist2,
    fst (PositioningSystem._report_position self time1 time2)
    = PositioningSystem.Waiting_for_measurements dist1 dist2 /\
    dist1 = fst (get_averaged_distance c time1 1) /\
    dist2 = fst (get_averaged_distance c time2 2) /\
    (stored c 1 = [] -> dist1 = None) /\
    (stored c 2 = [] -> dist2 = None).
Proof.
  intros c Hmissing.
  exists (fst (get_averaged_distance c time1 1)),
         (fst (get_averaged_distance c time2 2)).
  assert (H1 : stored c 1 = [] -> fst (get_averaged_distance c time1 1) = None)
    by apply average_of_empty.
  assert (H2 : stored c 2 = [] -> fst (get_averaged_distance c time2 2) = None)
    by apply average_of_empty.
  split; [|now repeat split].
  unfold PositioningSystem._report_position. fold c.
  pose proof (second_average c time1 time2) as Hsecond.
  destruct (get_averaged_distance c time1 1) as [dist1 c1].
  cbn [fst snd] in *.
  destruct (get_averaged_distance c1 time2 2) as [dist2 c2].
  cbn [fst] in *. subst dist2.
  destruct Hmissing as [Hm|Hm].
  - rewrite (H1 Hm). reflexivity.
  - rewrite (H2 Hm). destruct dist1; reflexivity.
Qed.

(** Five samples of 1.2 m for beacon 1, none for beacon 2. *)
Lemma report_waits_for_missing_beacon_witness :
  exists dist1 dist2,
    fst (PositioningSystem._report_position
           (PositioningSystem.mk
              (DistanceCollector.mk "tag" 2
                 [(10, 1.2); (10.2, 1.2); (10.4, 1.2); (10.6, 1.2);
                  (10.8, 1.2)] [] true)
              "beacon1" "beacon2" (mk (0, 0) (2, 0)) true) 11 11)
    = PositioningSystem.Waiting_for_measurements dist1 dist2 /\
    dist2 = None.
Proof.
  destruct (report_waits_for_missing_beacon
              (PositioningSystem.mk
                 (DistanceCollector.mk "tag" 2
                    [(10, 1.2); (10.2, 1.2); (10.4, 1.2); (10.6, 1.2);
                     (10.8, 1.2)] [] true)
                 "beacon1" "beacon2" (mk (0, 0) (2, 0)) true) 11 11)
    as (dist1 & dist2 & Hreport & _ & _ & _ & Hnone).
  - right. reflexivity.
  - exists dist1, dist2. split; [exact Hreport|]. now apply Hnone.
Defined.

(** X9.  A position report is consistent: the position is what the solver
    gives for the two reported distances, which are positive; each count
    is the length of the list the collector then keeps for that beacon,
    at least one; and each reported distance is the total of that list
    divided by the reported count. *)
Theorem position_report_is_consistent self time1 time2 x y dist1 n1 dist2 n2 :
  fst (PositioningSystem._report_position self time1 time2)
  = PositioningSystem.Position x y dist1 n1 dist2 n2 ->
  let c :=
    PositioningSystem.tag_collector
      (snd (PositioningSystem._report_position self time1 time2)) in
  calculate_position (PositioningSystem.calculator self) dist1 dist2
  = Some (x, y) /\
  0 < dist1 /\ 0 < dist2 /\
  n1 = Z.of_nat (List.length (stored c 1)) /\
  n2 = Z.of_nat (List.length (stored c 2)) /\
  (1 <= n1)%Z /\ (1 <= n2)%Z /\
  dist1 = total_of (stored c 1) / IZR n1 /\
  dist2 = total_of (stored c 2) / IZR n2.
Proof.
  unfold PositioningSystem._report_position.
  set (c0 := PositioningSystem.tag_collector self).
  pose proof (count_after_average DISTANCE_TIMEOUT_SECONDS c0 time1 1) as Hc1.
  pose proof (average_some_nonempty DISTANCE_TIMEOUT_SECONDS c0 time1 1) as Hn1.
  fold get_averaged_distance in Hc1, Hn1.
  destruct (get_averaged_distance c0 time1 1) as [o1 c1].
  pose proof (count_after_average DISTANCE_TIMEOUT_SECONDS c1 time2 2) as Hc2.
  pose proof (average_some_nonempty DISTANCE_TIMEOUT_SECONDS c1 time2 2) as Hn2.
  pose proof (stored_other_after_average DISTANCE_TIMEOUT_SECONDS c1 time2 2 1)
    as Hkeep.
  fold get_averaged_distance in Hc2, Hn2, Hkeep.
  destruct (get_averaged_distance c1 time2 2) as [o2 c2].
  cbn [fst snd] in *.
  destruct o1 as [d1|]; [|discriminate].
  destruct o2 as [d2|]; [|discriminate].
  destruct (calculate_position (PositioningSystem.calculator
                                  (PositioningSystem.set_tag_collector self c2))
              d1 d2) as [[x' y']|] eqn:Hpos; [|discriminate].
  cbn [fst snd PositioningSystem.tag_collector
       PositioningSystem.set_tag_collector].
  intros [= <- <- <- <- <- <-].
  cbn [PositioningSystem.calculator PositioningSystem.set_tag_collector]
    in Hpos.
  assert (Hnot : calculate_position (PositioningSystem.calculator self) d1 d2
                 <> None) by (rewrite Hpos; discriminate).
  rewrite calculate_position_none in Hnot.
  specialize (Hc1 d1 eq_refl). specialize (Hc2 d2 eq_refl).
  destruct (Hn1 d1 eq_refl) as [_ Hne1]. destruct (Hn2 d2 eq_refl) as [_ Hne2].
  cbv zeta in Hc1, Hc2.
  rewrite <- (Hkeep ltac:(discriminate)) in Hc1, Hne1.
  assert (Hcount1 : get_measurement_count c2 1 = get_measurement_count c1 1).
  { rewrite !count_is_length. now rewrite (Hkeep ltac:(discriminate)). }
  rewrite <- Hcount1 in Hc1.
  rewrite !count_is_length in *.
  repeat split; try assumption; try lra.
  - destruct (stored c2 1); [contradiction | simpl; lia].
  - destruct (stored c2 2); [contradiction | simpl; lia].
Qed.

(** One sample of 5 m for each beacon, anchors at (0,0) and (6,0). *)
Lemma position_report_is_consistent_witness :
  calculate_position (mk (0, 0) (6, 0)) 5 5 = Some (3, 4) /\ 0 < 5.
Proof.
  assert (Hreport :
    fst (PositioningSystem._report_position
           (PositioningSystem.mk
              (DistanceCollector.mk "tag" 2 [(10, 5)] [(10, 5)] true)
              "beacon1" "beacon2" (mk (0, 0) (6, 0)) true) 11 11)
    = PositioningSystem.Position 3 4 5 1 5 1).
  { unfold PositioningSystem._report_position, get_averaged_distance,
      get_averaged_distance_with, DISTANCE_TIMEOUT_SECONDS, total_of.
    run.
    replace ((0 + 5) / INR 1) with 5 by (cbn [INR]; lra).
    rewrite position_3_4. reflexivity. }
  destruct (position_report_is_consistent _ _ _ _ _ _ _ _ _ Hreport)
    as (Hpos & Hd1 & _).
  split; [exact Hpos | exact Hd1].
Defined.

Close Scope string_scope.

(** ** The report loop *)


(** ** From the device line to the collector *)

Open Scope string_scope.

Lemma substring_all s : String.substring 0 (String.length s) s = s.
Proof. induction s as [|c s IH]; simpl; [reflexivity | now rewrite IH]. Qed.

Lemma without_raw_prefix_prefixed line :
  without_raw_prefix ("RAW: " ++ line) = line.
Proof.
  unfold without_raw_prefix.
  assert (Hp : String.prefix "RAW: " ("RAW: " ++ line) = true)
    by (simpl; destruct line; reflexivity).
  rewrite Hp. simpl. rewrite Nat.sub_0_r. apply substring_all.
Qed.

Lemma newline_not_blank s : (s ++ newline)%string <> "".
Proof. destruct s; discriminate. Qed.

Section TagSession.

Variable json_loads : string -> option json.
Variable json_dumps : json -> string.
Variable py_str : json -> string.
Variable isoformat_now : string.
Variable search_distance : string -> option R.
Variable search_rssi : string -> option R.
Variable search_device_timestamp : string -> option Z.

Local Abbreviation parse :=
  (parse_ranging_data json_loads isoformat_now
     search_distance search_rssi search_device_timestamp).
Local Abbreviation tag_turn :=
  (start_tag_turn json_loads json_dumps py_str isoformat_now
     search_distance search_rssi search_device_timestamp).
Local Abbreviation tag_loop :=
  (start_tag_loop json_loads json_dumps py_str isoformat_now
     search_distance search_rssi search_device_timestamp).

(** Parsing the entries of a block and re-emitting them in raw format
    keeps the usable entries, and nothing that the reader would choke
    on. *)
Lemma parse_then_raw block entries :
  Forall entry_measured entries ->
  exists parsed raws,
    parse_results isoformat_now block entries = Return parsed /\
    raw_results parsed = Return raws /\
    usable_entries raws = usable_entries entries /\
    Forall entry_shaped raws /\
    (Exists entry_ok entries -> parsed <> []).
Proof.
  induction 1 as [|entry entries Hentry _ IH].
  - exists [], []. repeat split; [constructor|]. intros H. inversion H.
  - destruct IH as (parsed & raws & Hparse & Hraw & Husable & Hshaped & Hok).
    destruct entry as [| | | | |fields]; try contradiction.
    cbn [entry_measured] in Hentry. cbn [parse_results].
    destruct (is_str (dict_get fields "Status") "Ok") eqn:Estatus.
    + destruct (Hentry eq_refl) as [d_cm Hd].
      unfold dict_get_default at 1. rewrite Hd. cbn [cm_to_m bind].
      rewrite Hparse. cbn [bind].
      eexists (_ :: parsed), (_ :: raws). split; [reflexivity|].
      split; [cbn [raw_results]; rewrite Hraw; reflexivity|].
      split; [|split].
      * unfold usable_entries in *. cbn [flat_map]. rewrite Husable.
        f_equal. unfold dict_get_default. cbn. rewrite Estatus, Hd.
        destruct (dict_get fields "Addr") as [[| | | addr | |]|];
          reflexivity.
      * constructor; [|exact Hshaped].
        unfold dict_get_default. cbn. now rewrite Hd.
      * discriminate.
    + exists parsed, raws. split; [exact Hparse|]. split; [exact Hraw|].
      split; [|split; [exact Hshaped|]].
      * unfold usable_entries in *. cbn [flat_map]. rewrite Husable.
        cbn [usable_entry]. now rewrite Estatus.
      * intros Hex. apply Hok. inversion Hex as [? ? Hhead|]; subst;
          [|assumption].
        destruct Hhead as (fields' & [= <-] & Hs). congruence.
Qed.

Lemma output_of_parsed_block timestamp block parsed count raws :
  raw_results parsed = Return raws ->
  output_data_raw json_dumps py_str
    [("timestamp", timestamp); ("block", block);
     ("results", JArr parsed); ("count", count)]
  = Return [json_dumps (JObj [("Block", block); ("results", JArr raws)])].
Proof.
  intros Hraw. unfold output_data_raw. cbn. now rewrite Hraw.
Qed.

(** X11.  The tag session and the reader compose without loss.  For a
    device line that is a block (an object with ['Block'] and a list
    ['results']) whose entries are objects with a numeric [D_cm] when
    their status is ['Ok'], at least one of them ['Ok']: the serial
    collector prints one JSON line, and the reader, given back by
    [json.loads] the value that [json.dumps] printed, records exactly the
    samples of the usable entries of the device line (status ['Ok'],
    [D_cm / 100], ['0x0001'] and ['0x0002']), in order and with no error
    record. *)
Theorem tag_block_reaches_collector line fields block entries :
  line <> "" ->
  json_loads line = Some (JObj fields) ->
  dict_get fields "Block" = Some block ->
  dict_get fields "results" = Some (JArr entries) ->
  Forall entry_measured entries ->
  Exists entry_ok entries ->
  exists parsed raws,
    parse_results isoformat_now block entries = Return parsed /\
    raw_results parsed = Return raws /\
    let raw := JObj [("Block", block); ("results", JArr raws)] in
    (start_tag_turn json_loads json_dumps py_str isoformat_now
     search_distance search_rssi search_device_timestamp (Some line)) = Return [json_dumps raw] /\
    forall strip self timestamp,
      running self = true ->
      strip (json_dumps raw ++ newline) <> "" ->
      json_loads (without_raw_prefix (strip (json_dumps raw ++ newline)))
      = Some raw ->
      _read_output_turn json_loads strip self timestamp
        (json_dumps raw ++ newline)
      = Continue
          (record_all self
             (map (fun s => (fst s, timestamp, snd s))
                (usable_entries entries)))
          (map (fun s => DEBUG_distance (fst s) (snd s))
             (usable_entries entries)).
Proof.
  intros Hline Hloads Hblock Hresults Hmeasured Hok.
  destruct (parse_then_raw block entries Hmeasured)
    as (parsed & raws & Hparse & Hraw & Husable & Hshaped & Hne).
  specialize (Hne Hok).
  exists parsed, raws. split; [exact Hparse|]. split; [exact Hraw|].
  cbv zeta. split.
  - unfold start_tag_turn, parse_ranging_data.
    rewrite (proj2 (String.eqb_neq _ _) Hline), Hloads.
    cbn [py_in bind]. unfold dict_has. rewrite Hresults, Hblock.
    cbn [py_getitem bind]. rewrite Hblock, Hresults. cbn [iterate bind].
    rewrite Hparse. cbn [bind].
    destruct parsed as [|p parsed]; [contradiction|]. cbn [bind].
    apply (output_of_parsed_block (JStr isoformat_now) block (p :: parsed)
             (JNum (INR (List.length (p :: parsed)))) raws Hraw).
  - intros strip self timestamp Hrun Hstrip Hback.
    unfold _read_output_turn. rewrite Hrun. cbn [negb].
    rewrite (proj2 (String.eqb_neq _ _) (newline_not_blank _)).
    rewrite (proj2 (String.eqb_neq _ _) Hstrip), Hback.
    cbn. rewrite (for_results_shaped timestamp raws Hshaped self).
    now rewrite Husable.
Qed.

(** X12.  A line in which the collector finds nothing is passed on with
    the prefix ['RAW: '], and the reader's [line[5:]] gives back exactly
    that line, whatever it contains; if it is not JSON the reader drops it
    with no log record and no change of the collector. *)
Theorem unparsed_line_passes_through line :
  line <> "" ->
  (parse_ranging_data json_loads isoformat_now
     search_distance search_rssi search_device_timestamp line) = Return None ->
  (start_tag_turn json_loads json_dumps py_str isoformat_now
     search_distance search_rssi search_device_timestamp (Some line)) = Return ["RAW: " ++ line] /\
  without_raw_prefix ("RAW: " ++ line) = line /\
  forall strip self timestamp,
    running self = true ->
    strip (("RAW: " ++ line) ++ newline) = "RAW: " ++ line ->
    json_loads line = None ->
    _read_output_turn json_loads strip self timestamp
      (("RAW: " ++ line) ++ newline)
    = Continue self [].
Proof.
  intros Hline Hparse. split; [|split].
  - unfold start_tag_turn.
    rewrite (proj2 (String.eqb_neq _ _) Hline), Hparse. reflexivity.
  - apply without_raw_prefix_prefixed.
  - intros strip self timestamp Hrun Hstrip Hnone.
    unfold _read_output_turn. rewrite Hrun. cbn [negb].
    rewrite (proj2 (String.eqb_neq _ _) (newline_not_blank _)).
    rewrite Hstrip.
    assert (Hnb : "RAW: " ++ line <> "") by discriminate.
    rewrite (proj2 (String.eqb_neq _ _) Hnb).
    now rewrite without_raw_prefix_prefixed, Hnone.
Qed.

(** X13.  A device line that is a bare JSON number, boolean or null ends
    the tag session: [parse_ranging_data] raises [TypeError], which is not
    a [JSONDecodeError], and the loop of [start_tag] stops there; nothing
    that the device sends afterwards is read. *)
Theorem scalar_line_ends_session line value before rest :
  line <> "" ->
  json_loads line = Some value ->
  value = JNull \/ (exists b, value = JBool b) \/ (exists r, value = JNum r) ->
  parse_ranging_data json_loads isoformat_now
    search_distance search_rssi search_device_timestamp line
  = Raise TypeError /\
  start_tag_loop json_loads json_dumps py_str isoformat_now
    search_distance search_rssi search_device_timestamp
    (before ++ Some line :: rest)
  = start_tag_loop json_loads json_dumps py_str isoformat_now
      search_distance search_rssi search_device_timestamp
      (before ++ [Some line]) /\
  start_tag_loop json_loads json_dumps py_str isoformat_now
    search_distance search_rssi search_device_timestamp
    (Some line :: rest)
  = [Error_during_tag_operation TypeError].
Proof.
  intros Hline Hloads Hscalar.
  assert (Hparse : parse line = Raise TypeError).
  { unfold parse_ranging_data. rewrite Hloads.
    destruct Hscalar as [-> | [[b ->] | [r ->]]]; reflexivity. }
  assert (Hturn : tag_turn (Some line) = Raise TypeError).
  { unfold start_tag_turn.
    now rewrite (proj2 (String.eqb_neq _ _) Hline), Hparse. }
  split; [exact Hparse|]. split.
  - induction before as [|l before IH]; cbn [app start_tag_loop].
    + now rewrite Hturn.
    + destruct (start_tag_turn _ _ _ _ _ _ _ l); [now rewrite IH | reflexivity].
  - cbn [start_tag_loop]. now rewrite Hturn.
Qed.

End TagSession.

(** A block with an ['Ok'] entry for beacon 1 at 39 cm and an entry with
    another status: the collector prints one line, and the reader records
    0.39 m for beacon 1. *)
Lemma tag_block_reaches_collector_witness :
  let device :=
    JObj [("Block", JNum 941);
          ("results",
           JArr [JObj [("Addr", JStr "0x0001"); ("Status", JStr "Ok");
                       ("D_cm", JNum 39)];
                 JObj [("Addr", JStr "0x0002"); ("Status", JStr "Err");
                       ("D_cm", JNum 34)]])] in
  let raw :=
    JObj [("Block", JNum 941);
          ("results",
           JArr [JObj [("Addr", JStr "0x0001"); ("Status", JStr "Ok");
                       ("D_cm", JNum 39); ("LPDoA_deg", JNum 0);
                       ("LAoA_deg", JNum 0); ("RAoA_deg", JNum 0);
                       ("LFoM", JNum 0); ("CFO_100ppm", JNum 0)]])] in
  let json_loads :=
    fun text => if String.eqb text "device" then Some device else Some raw in
  _read_output_turn json_loads (fun _ => "printed")
    (DistanceCollector.mk "tag" 2 [] [] true) 1 ("printed" ++ newline)
  = Continue (DistanceCollector.mk "tag" 2 [(1, 39 / 100)%R] [] true)
      [DEBUG_distance 1 (39 / 100)%R].
Proof.
  intros device raw json_loads.
  destruct (tag_block_reaches_collector json_loads (fun _ => "printed")
              (fun _ => "") "now" (fun _ => None) (fun _ => None)
              (fun _ => None) "device"
              [("Block", JNum 941);
               ("results",
                JArr [JObj [("Addr", JStr "0x0001"); ("Status", JStr "Ok");
                            ("D_cm", JNum 39)];
                      JObj [("Addr", JStr "0x0002"); ("Status", JStr "Err");
                            ("D_cm", JNum 34)]])]
              (JNum 941)
              [JObj [("Addr", JStr "0x0001"); ("Status", JStr "Ok");
                     ("D_cm", JNum 39)];
               JObj [("Addr", JStr "0x0002"); ("Status", JStr "Err");
                     ("D_cm", JNum 34)]])
    as (parsed & raws & Hparse & Hraw & _ & Hreader).
  - discriminate.
  - reflexivity.
  - reflexivity.
  - reflexivity.
  - constructor; [|constructor; [|constructor]].
    + intros _. now exists 39%R.
    + discriminate.
  - apply Exists_cons_hd. eexists. split; reflexivity.
  - cbn in Hparse. injection Hparse as <-.
    cbn in Hraw. injection Hraw as <-.
    rewrite (Hreader (fun _ => "printed")
               (DistanceCollector.mk "tag" 2 [] [] true) 1%R eq_refl).
    + unfold usable_entries, record_all, record, _add_distance_measurement,
        _cleanup_old_measurements.
      run. reflexivity.
    + discriminate.
    + reflexivity.
Defined.

(** A diagnostic line of the firmware. *)
Lemma unparsed_line_passes_through_witness :
  start_tag_turn (fun _ => None) (fun _ => "") (fun _ => "") "now"
    (fun _ => None) (fun _ => None) (fun _ => None) (Some "ok")
  = Return ["RAW: ok"].
Proof.
  apply (unparsed_line_passes_through (fun _ => None) (fun _ => "")
           (fun _ => "") "now" (fun _ => None) (fun _ => None)
           (fun _ => None) "ok").
  - discriminate.
  - reflexivity.
Defined.

(** The line 5 between two other lines. *)
Lemma scalar_line_ends_session_witness :
  start_tag_loop (fun _ => Some (JNum 5)) (fun _ => "") (fun _ => "") "now"
    (fun _ => None) (fun _ => None) (fun _ => None)
    (None :: Some "5" :: [Some "6"])
  = start_tag_loop (fun _ => Some (JNum 5)) (fun _ => "") (fun _ => "") "now"
      (fun _ => None) (fun _ => None) (fun _ => None)
      (None :: [Some "5"]).
Proof.
  apply (scalar_line_ends_session (fun _ => Some (JNum 5)) (fun _ => "")
           (fun _ => "") "now" (fun _ => None) (fun _ => None)
           (fun _ => None) "5" (JNum 5) [None] [Some "6"]).
  - discriminate.
  - reflexivity.
  - right; right. now exists 5%R.
Defined.

Close Scope string_scope.

(** ** The reader as an execution of the collector *)








